(** * The Quickset pan-tilt packet codec ([quickset_pan_tilt/protocol.py])

    A shallow embedding of the [QuicksetProtocol] class and of its two
    concrete variants [PTCR20] (addressed) and [PTHR90] (unaddressed),
    followed by the properties of the codec.

    Conventions of the embedding:
    - a [bytes] / [bytearray] object is a [list Z] whose elements lie in
      [0, 256) (predicate [is_byte]);
    - a Python [int] is a [Z], a Python [float] is a primitive binary64
      [float];
    - a call that can raise returns an [outcome]; a method that can also
      emit a warning runs in the monad [M], which carries the log of the
      warnings emitted so far. *)

From Stdlib Require Import ZArith Lia Floats.
From stdpp Require Import base strings list gmap.

Open Scope Z_scope.

(** ** Python values, exceptions and effects *)

Module Py.

(** The exception classes the module can raise, directly or through the
    built-ins it calls. *)
Inductive exception : Type :=
| NotImplementedError (msg : string)
| OverflowError
| ValueError
| TypeError
| AttributeError
| KeyError
| StructError.

Inductive outcome (A : Type) : Type :=
| Returns (a : A)
| Raises (e : exception).
Arguments Returns {A} a.
Arguments Raises {A} e.

#[global] Instance outcome_ret : MRet outcome := @Returns.
#[global] Instance outcome_bind : MBind outcome := fun A B k m =>
  match m with
  | Returns a => k a
  | Raises e => Raises e
  end.

(** Methods that may call [warnings.warn]: the warnings emitted, oldest
    first, and the outcome of the call. *)
Definition M (A : Type) : Type := (list string * outcome A)%type.

#[global] Instance M_ret : MRet M := fun A a => ([], Returns a).
#[global] Instance M_bind : MBind M := fun A B k m =>
  match m with
  | (w, Returns a) => let '(w', r) := k a in (w ++ w', r)
  | (w, Raises e) => (w, Raises e)
  end.

Definition lift {A} (o : outcome A) : M A := ([], o).
Definition warn (msg : string) : M unit := ([msg], Returns tt).
Definition raise {A} (e : exception) : M A := ([], Raises e).

(** The arguments the assemblers are declared to take: [int],
    [float] and [None]. *)
Inductive value : Type :=
| VNone
| VInt (z : Z)
| VFloat (f : float).

Definition is_byte (b : Z) : Prop := 0 ≤ b < 256.
Definition is_byteb (b : Z) : bool := (0 <=? b) && (b <? 256).

Inductive byteorder : Type := little | big.

(** [u] written in base 256, least significant digit first, on [length]
    digits. *)
Fixpoint le_digits (length : nat) (u : Z) : list Z :=
  match length with
  | O => []
  | S n => u `mod` 256 :: le_digits n (u `div` 256)
  end.

(** [int.to_bytes(length, byteorder, signed=...)]: [OverflowError] when
    the integer does not fit. *)
Definition to_bytes (z : Z) (length : nat) (order : byteorder)
    (signed : bool) : outcome (list Z) :=
  let span := 256 ^ Z.of_nat length in
  let fits :=
    if signed then (- (span `div` 2) <=? z) && (z <? span `div` 2)
    else (0 <=? z) && (z <? span) in
  if fits then
    let le := le_digits length (z `mod` span) in
    Returns (match order with little => le | big => rev le end)
  else Raises OverflowError.

(** [struct.unpack('<h', b)[0]]: [struct.error] unless [b] has exactly
    two bytes. *)
Definition unpack_lt_h (b : list Z) : outcome Z :=
  match b with
  | [lo; hi] =>
      let u := lo + 256 * hi in
      Returns (if u <? 32768 then u else u - 65536)
  | _ => Raises StructError
  end.

(** [int(f)] on a float: truncation toward zero; [ValueError] on NaN,
    [OverflowError] on an infinity. *)
Definition int_of_float (f : float) : outcome Z :=
  match Prim2SF f with
  | S754_zero _ => Returns 0
  | S754_infinity _ => Raises OverflowError
  | S754_nan => Raises ValueError
  | S754_finite s m e =>
      let mag :=
        match e with
        | Zneg p => Z.shiftr (Zpos m) (Zpos p)
        | _ => Z.shiftl (Zpos m) e
        end in
      Returns (if s then - mag else mag)
  end.

(** [int(v)] for the values that reach it. *)
Definition int (v : value) : outcome Z :=
  match v with
  | VInt z => Returns z
  | VFloat f => int_of_float f
  | VNone => Raises TypeError
  end.

(** [v * 10]. *)
Definition mul10 (v : value) : outcome value :=
  match v with
  | VInt z => Returns (VInt (z * 10))
  | VFloat f => Returns (VFloat (f * 10)%float)
  | VNone => Raises TypeError
  end.

Definition is_None (v : value) : bool :=
  match v with VNone => true | _ => false end.

(** [v > n] and [v < n] against an integer literal [n]. *)
Definition gt (v : value) (n : Z) : outcome bool :=
  match v with
  | VInt z => Returns (n <? z)
  | VFloat f => Returns (PrimFloat.of_uint63 (Uint63.of_Z n) <? f)%float
  | VNone => Raises TypeError
  end.

Definition lt (v : value) (n : Z) : outcome bool :=
  match v with
  | VInt z => Returns (z <? n)
  | VFloat f => Returns (f <? PrimFloat.of_uint63 (Uint63.of_Z n))%float
  | VNone => Raises TypeError
  end.

(** [v.to_bytes()]: one byte, big-endian, unsigned; only [int] has the
    method. *)
Definition to_bytes_default (v : value) : outcome (list Z) :=
  match v with
  | VInt z => to_bytes z 1 big false
  | _ => Raises AttributeError
  end.

(** Binding of positional arguments to [()] and to
    [(pan=None, tilt=None)]; [TypeError] on a wrong count. *)
Definition bind_no_args (data : list value) : outcome unit :=
  match data with
  | [] => Returns tt
  | _ => Raises TypeError
  end.

Definition bind_one_arg (data : list value) : outcome value :=
  match data with
  | [a] => Returns a
  | _ => Raises TypeError
  end.

Definition bind_two_optional (data : list value) : outcome (value * value) :=
  match data with
  | [] => Returns (VNone, VNone)
  | [a] => Returns (a, VNone)
  | [a; b] => Returns (a, b)
  | _ => Raises TypeError
  end.

(** [d[k]] on a dict. *)
Definition getitem {V} (d : gmap string V) (k : string) : outcome V :=
  match d !! k with
  | Some v => Returns v
  | None => Raises KeyError
  end.

(** [bytearray.insert(0, b)]: [ValueError] unless [b] is in range(256). *)
Definition bytearray_insert0 (b : Z) (a : list Z) : outcome (list Z) :=
  if is_byteb b then Returns (b :: a) else Raises ValueError.

End Py.
Import Py.

(** ** Control characters *)

Record ControlCharacters : Type := mkControlCharacters {
  STX : Z; ETX : Z; ACK : Z; NACK : Z; ESC : Z
}.

Definition CONTROL_CHARS : ControlCharacters :=
  {| STX := 0x02; ETX := 0x03; ACK := 0x06; NACK := 0x15; ESC := 0x1b |}.

(** [byte in CONTROL_CHARS]: membership in the tuple. *)
Definition in_tuple (byte : Z) (t : ControlCharacters) : bool :=
  bool_decide (byte ∈ [STX t; ETX t; ACK t; NACK t; ESC t]).

(** ** Static methods of [QuicksetProtocol] *)

Definition int_to_bytes (integer : Z) : outcome (list Z) :=
  to_bytes integer 2 little true.

Definition bytes_to_int (two_bytes : list Z) : outcome Z :=
  unpack_lt_h two_bytes.

(** The loop [lrc = 0; for byte in ints: lrc ^= byte]. *)
Definition xor_fold (ints : list Z) : Z :=
  fold_left (fun lrc byte => Z.lxor lrc byte) ints 0.

Definition compute_lrc (byte_array : list Z) : outcome (list Z) :=
  let lrc := xor_fold byte_array in
  to_bytes lrc 1 big false.

(** [bytearray((ESC, byte))] cannot raise here: the only caller passes a
    control character, and setting bit 7 of it stays below 256. *)
Definition insert_escape_sequence (byte : Z) : list Z :=
  let byte := Z.lor byte 0x80 in
  [ESC CONTROL_CHARS; byte].

Definition escape_control_chars (packet : list Z) : list Z :=
  fold_left
    (fun new_packet byte =>
       if in_tuple byte CONTROL_CHARS
       then new_packet ++ insert_escape_sequence byte
       else new_packet ++ [byte])
    packet [].

(** The locals of the loop of [remove_escape_sequences]. The source
    assigns [found_sec] (sic) where its comment says it clears
    [found_esc]: that is a third local, which is never read. *)
Record unescape_locals : Type := mkLocals {
  new_packet : list Z;
  found_esc : bool;
  found_sec : option bool
}.

Definition unescape_step (st : unescape_locals) (byte : Z) : unescape_locals :=
  if byte =? ESC CONTROL_CHARS then
    {| new_packet := new_packet st; found_esc := true;
       found_sec := found_sec st |}
  else if found_esc st then
    let byte := Z.land byte 0x7f in
    {| new_packet := new_packet st ++ [byte]; found_esc := found_esc st;
       found_sec := Some false |}
  else
    {| new_packet := new_packet st ++ [byte]; found_esc := found_esc st;
       found_sec := found_sec st |}.

Definition remove_escape_sequences (packet : list Z) : list Z :=
  new_packet
    (fold_left unescape_step packet
       {| new_packet := []; found_esc := false; found_sec := None |}).

(** ** The command table and the assemblers *)

(** One entry of [_COMMANDS]. An assembler returns [None] or the data
    bytes. *)
Record command : Type := mkCommand {
  assemble : list value -> M (option (list Z));
  parse : list value -> M (option (list Z));
  number : Z
}.

(** A method whose body is [pass], and [lambda: None]. *)
Definition pass (data : list value) : M (option (list Z)) :=
  _ ← lift (bind_no_args data);
  mret None.

(** The one-character string holding a double quote (code 34). *)
Definition dquote : string :=
  String (Ascii.Ascii false true false false false true false false)
    EmptyString.

Definition timeout_warning : string :=
  "Timeout value must be between 0 and 120 seconds."
  +:+ " Timeout will not be set.".

Definition _assemble_fault_reset (data : list value) : M (option (list Z)) :=
  _ ← lift (bind_no_args data);
  reset_cmd ← lift (to_bytes 0x01 1 big false);
  pan_jog_cmd ← lift (to_bytes 0 1 big false);
  tilt_jog_cmd ← lift (to_bytes 0 1 big false);
  zoom_jog_cmd ← lift (to_bytes 0 1 big false);
  focus_jog_cmd ← lift (to_bytes 0 1 big false);
  let data_bytes :=
    reset_cmd ++ pan_jog_cmd ++ tilt_jog_cmd ++ zoom_jog_cmd
    ++ focus_jog_cmd in
  mret (Some data_bytes).

Definition _parse_fault_reset := pass.

Definition _assemble_get_comm_timeout (data : list value)
    : M (option (list Z)) :=
  _ ← lift (bind_no_args data);
  byte ← lift (to_bytes 0x80 1 big false);
  mret (Some byte).

Definition _parse_get_comm_timeout := pass.

Definition _assemble_set_comm_timeout (data : list value)
    : M (option (list Z)) :=
  timeout ← lift (bind_one_arg data);
  above ← lift (gt timeout 120);
  outside ← (if above : bool then mret true else lift (lt timeout 0));
  if outside : bool then
    _ ← warn timeout_warning;
    mret None
  else
    byte ← lift (to_bytes_default timeout);
    mret (Some byte).

Definition _parse_set_comm_timeout := pass.

Definition _assemble_move_to_entered (data : list value)
    : M (option (list Z)) :=
  '(pan, tilt) ← lift (bind_two_optional data);
  let pan := if is_None pan then VFloat 0x1.f3f3333333333p+9%float else pan in
  let tilt :=
    if is_None tilt then VFloat 0x1.f3f3333333333p+9%float else tilt in
  pan ← lift (mul10 pan ≫= int);
  tilt ← lift (mul10 tilt ≫= int);
  pan_bytes ← lift (int_to_bytes pan);
  tilt_bytes ← lift (int_to_bytes tilt);
  let data_bytes := pan_bytes ++ tilt_bytes in
  mret (Some data_bytes).

Definition _parse_move_to_entered := pass.

Definition _assemble_move_to_delta (data : list value)
    : M (option (list Z)) :=
  '(pan, tilt) ← lift (bind_two_optional data);
  let pan := if is_None pan then VInt 0 else pan in
  let tilt := if is_None tilt then VInt 0 else tilt in
  pan ← lift (mul10 pan ≫= int);
  tilt ← lift (mul10 tilt ≫= int);
  pan_bytes ← lift (int_to_bytes pan);
  tilt_bytes ← lift (int_to_bytes tilt);
  let data_bytes := pan_bytes ++ tilt_bytes in
  mret (Some data_bytes).

Definition _parse_move_to_delta := pass.

(** The abstract base class: what [__init__] builds and what
    [_assemble_cmd_data_lrc] does, for any implementation of the two
    abstract status methods. *)
Section QuicksetProtocol.

Variable _assemble_get_status : list value -> M (option (list Z)).
Variable _parse_get_status : list value -> M (option (list Z)).

Definition _COMMANDS : gmap string command :=
  list_to_map [
    ("get_status",
      {| assemble := _assemble_get_status;
         parse := _parse_get_status;
         number := 0x31 |});
    ("move_absolute",
      {| assemble := _assemble_move_to_entered;
         parse := _parse_move_to_entered;
         number := 0x33 |});
    ("move_delta",
      {| assemble := _assemble_move_to_delta;
         parse := _parse_move_to_delta;
         number := 0x34 |});
    ("home",
      {| assemble := pass;
         parse := pass;
         number := 0x35 |});
    ("fault_reset",
      {| assemble := _assemble_fault_reset;
         parse := _parse_fault_reset;
         number := 0x31 |});
    ("get_comm_timeout",
      {| assemble := _assemble_get_comm_timeout;
         parse := _parse_get_comm_timeout;
         number := 0x96 |});
    ("set_comm_timeout",
      {| assemble := _assemble_set_comm_timeout;
         parse := _parse_set_comm_timeout;
         number := 0x96 |})
  ].

Definition COMMAND_NAMES : gset string := dom _COMMANDS.

Definition not_implemented_message (cmd_name : string) : string :=
  "Command " +:+ dquote +:+ cmd_name +:+ dquote +:+ " is not implemented.".

Definition _assemble_cmd_data_lrc (cmd_name : string) (data : list value)
    : M (list Z) :=
  if bool_decide (cmd_name ∉ COMMAND_NAMES) then
    raise (NotImplementedError (not_implemented_message cmd_name))
  else
    cmd_bytes ← lift (c ← getitem _COMMANDS cmd_name;
                      to_bytes (number c) 1 big false);
    data_bytes ← (c ← lift (getitem _COMMANDS cmd_name);
                  assemble c data);
    let packet :=
      match data_bytes with
      | Some data_bytes => cmd_bytes ++ data_bytes
      | None => cmd_bytes
      end in
    lrc ← lift (compute_lrc packet);
    mret (packet ++ lrc).

End QuicksetProtocol.

(** ** The addressed variant

    [identity] is whatever the constructor was given (0 by default);
    inserting it into the packet raises unless it is a byte. STX and ETX
    are bytes, so their insertion and appending always succeed. *)

Module PTCR20.

Record t : Type := new { identity : Z }.

Definition _assemble_get_status := pass.
Definition _parse_get_status := pass.

Definition assemble_packet (self : t) (cmd_name : string)
    (data : list value) : M (list Z) :=
  packet ← _assemble_cmd_data_lrc _assemble_get_status _parse_get_status
             cmd_name data;
  packet ← lift (bytearray_insert0 (identity self) packet);
  let packet := escape_control_chars packet in
  packet ← lift (bytearray_insert0 (STX CONTROL_CHARS) packet);
  mret (packet ++ [ETX CONTROL_CHARS]).

End PTCR20.

(** ** The unaddressed variant *)

Module PTHR90.

Definition _assemble_get_status := pass.
Definition _parse_get_status := pass.

Definition assemble_packet (cmd_name : string) (data : list value)
    : M (list Z) :=
  packet ← _assemble_cmd_data_lrc _assemble_get_status _parse_get_status
             cmd_name data;
  let packet := escape_control_chars packet in
  packet ← lift (bytearray_insert0 (STX CONTROL_CHARS) packet);
  mret (packet ++ [ETX CONTROL_CHARS]).

End PTHR90.

(** * Properties *)

(** ** Integer codec *)

Lemma to_bytes_1_unsigned (z : Z) (order : byteorder) :
  is_byte z -> to_bytes z 1 order false = Returns [z].
Proof.
  unfold is_byte, to_bytes. intros Hz.
  change (256 ^ Z.of_nat 1) with 256.
  replace ((0 <=? z) && (z <? 256)) with true
    by (symmetry; apply andb_true_iff; split; [apply Z.leb_le|apply Z.ltb_lt]; lia).
  cbn [le_digits rev app].
  rewrite (Z.mod_small z 256) by lia.
  rewrite (Z.mod_small z 256) by lia.
  by destruct order.
Qed.

Lemma to_bytes_1_unsigned_inv (z : Z) (order : byteorder) (bs : list Z) :
  to_bytes z 1 order false = Returns bs -> is_byte z /\ bs = [z].
Proof.
  intros H.
  assert (Hz : is_byte z).
  { unfold to_bytes in H. change (256 ^ Z.of_nat 1) with 256 in H.
    destruct ((0 <=? z) && (z <? 256)) eqn:E; [|discriminate].
    apply andb_true_iff in E as [?%Z.leb_le ?%Z.ltb_lt]. by split. }
  split; [done|].
  rewrite to_bytes_1_unsigned in H by done. congruence.
Qed.

Lemma int_to_bytes_in_range (v : Z) :
  -32768 ≤ v ≤ 32767 ->
  int_to_bytes v
  = Returns [(v `mod` 65536) `mod` 256; ((v `mod` 65536) `div` 256) `mod` 256].
Proof.
  intros Hv. unfold int_to_bytes, to_bytes.
  change (256 ^ Z.of_nat 2) with 65536. change (65536 `div` 2) with 32768.
  match goal with |- context [if ?b then _ else _] => destruct b eqn:E end.
  - reflexivity.
  - apply andb_false_iff in E as [E%Z.leb_gt|E%Z.ltb_ge]; lia.
Qed.

(** C10. For every integer [v] of [-32768, 32767], [int_to_bytes v]
    returns two bytes, and [bytes_to_int] of these two bytes returns [v]. *)
Theorem bytes_to_int_int_to_bytes (v : Z) (Hv : -32768 ≤ v ≤ 32767) :
  exists lo hi : Z,
    is_byte lo /\ is_byte hi /\
    int_to_bytes v = Returns [lo; hi] /\
    bytes_to_int [lo; hi] = Returns v.
Proof.
  rewrite int_to_bytes_in_range by done.
  eexists _, _. split_and!; [| |reflexivity|].
  - unfold is_byte. apply Z.mod_pos_bound. lia.
  - unfold is_byte. apply Z.mod_pos_bound. lia.
  - unfold bytes_to_int, unpack_lt_h. f_equal.
    case_match; Z.div_mod_to_equations; lia.
Qed.

Lemma bytes_to_int_int_to_bytes_witness :
  exists lo hi : Z,
    is_byte lo /\ is_byte hi /\
    int_to_bytes (-300) = Returns [lo; hi] /\
    bytes_to_int [lo; hi] = Returns (-300).
Proof. apply (bytes_to_int_int_to_bytes (-300)). lia. Defined.

(** ** Checksum *)

Lemma lxor_is_byte (a b : Z) : is_byte a -> is_byte b -> is_byte (Z.lxor a b).
Proof.
  unfold is_byte. intros [Ha0 Ha] [Hb0 Hb].
  assert (H0 : 0 ≤ Z.lxor a b) by (apply Z.lxor_nonneg; tauto).
  split; [done|].
  destruct (Z.eq_dec (Z.lxor a b) 0) as [->|Hne]; [lia|].
  change 256 with (2 ^ 8). apply Z.log2_lt_pow2; [lia|].
  pose proof (Z.log2_lxor a b Ha0 Hb0) as Hl.
  assert (La : Z.log2 a < 8).
  { destruct (Z.eq_dec a 0) as [->|?]; [done|].
    apply Z.log2_lt_pow2; [lia|]. by change (2 ^ 8) with 256. }
  assert (Lb : Z.log2 b < 8).
  { destruct (Z.eq_dec b 0) as [->|?]; [done|].
    apply Z.log2_lt_pow2; [lia|]. by change (2 ^ 8) with 256. }
  lia.
Qed.

Lemma fold_xor_is_byte (l : list Z) (a : Z) :
  Forall is_byte l -> is_byte a ->
  is_byte (fold_left (fun lrc byte => Z.lxor lrc byte) l a).
Proof.
  intros Hl. revert a.
  induction Hl as [|b l Hb _ IH]; intros a Ha; cbn [fold_left]; [done|].
  apply IH. by apply lxor_is_byte.
Qed.

Lemma fold_xor_permutation (l l' : list Z) :
  l ≡ₚ l' ->
  forall a : Z,
    fold_left (fun lrc byte => Z.lxor lrc byte) l a
    = fold_left (fun lrc byte => Z.lxor lrc byte) l' a.
Proof.
  induction 1 as [|x l l' _ IH|x y l|l l' l'' _ IH1 _ IH2]; intros a;
    cbn [fold_left].
  - reflexivity.
  - apply IH.
  - by rewrite !Z.lxor_assoc, (Z.lxor_comm x y).
  - by rewrite IH1.
Qed.

(** On a [bytes] object the checksum always exists and is one byte. *)
Lemma compute_lrc_returns (l : list Z) :
  Forall is_byte l ->
  is_byte (xor_fold l) /\ compute_lrc l = Returns [xor_fold l].
Proof.
  intros Hl.
  assert (Hb : is_byte (xor_fold l)) by (by apply fold_xor_is_byte).
  split; [done|]. unfold compute_lrc. by apply to_bytes_1_unsigned.
Qed.

Lemma compute_lrc_inv (l r : list Z) :
  compute_lrc l = Returns r -> is_byte (xor_fold l) /\ r = [xor_fold l].
Proof. apply to_bytes_1_unsigned_inv. Qed.

(** C8. The checksum of the empty sequence is the byte 0, the checksum of
    a one-byte sequence [[a]] is [a], and two byte sequences that are
    permutations of each other have the same checksum, which is the
    XOR-fold of either. *)
Theorem compute_lrc_xor_fold (a : Z) (l l' : list Z)
    (Ha : is_byte a) (Hl : Forall is_byte l) (Hp : l ≡ₚ l') :
  compute_lrc [] = Returns [0] /\
  compute_lrc [a] = Returns [a] /\
  compute_lrc l = Returns [xor_fold l] /\
  compute_lrc l' = compute_lrc l.
Proof.
  split_and!.
  - reflexivity.
  - destruct (compute_lrc_returns [a]) as [_ ->]; [by constructor|].
    unfold xor_fold. cbn [fold_left]. by rewrite Z.lxor_0_l.
  - by apply compute_lrc_returns.
  - unfold compute_lrc, xor_fold. by rewrite (fold_xor_permutation l l' Hp).
Qed.

Lemma compute_lrc_xor_fold_witness :
  compute_lrc [] = Returns [0] /\
  compute_lrc [0x5a] = Returns [0x5a] /\
  compute_lrc [0x34; 0x64; 0x80] = Returns [xor_fold [0x34; 0x64; 0x80]] /\
  compute_lrc [0x80; 0x34; 0x64] = compute_lrc [0x34; 0x64; 0x80].
Proof.
  apply (compute_lrc_xor_fold 0x5a [0x34; 0x64; 0x80] [0x80; 0x34; 0x64]).
  - unfold is_byte. lia.
  - repeat constructor; unfold is_byte; lia.
  - symmetry. exact (Permutation_cons_append [0x34; 0x64] 0x80).
Defined.

(** ** Escaping *)

Lemma escape_loop_acc (packet acc : list Z) :
  fold_left
    (fun new_packet byte =>
       if in_tuple byte CONTROL_CHARS
       then new_packet ++ insert_escape_sequence byte
       else new_packet ++ [byte])
    packet acc
  = acc ++ escape_control_chars packet.
Proof.
  unfold escape_control_chars.
  revert acc. induction packet as [|b packet IH]; intros acc; cbn [fold_left].
  - by rewrite app_nil_r.
  - destruct (in_tuple b CONTROL_CHARS);
      rewrite IH, (IH ([] ++ _)); by rewrite app_nil_l, app_assoc.
Qed.

Lemma escape_control_chars_app (p q : list Z) :
  escape_control_chars (p ++ q)
  = escape_control_chars p ++ escape_control_chars q.
Proof.
  unfold escape_control_chars at 1. rewrite fold_left_app.
  apply escape_loop_acc.
Qed.

Lemma escape_control_chars_cons (b : Z) (q : list Z) :
  escape_control_chars (b :: q)
  = escape_control_chars [b] ++ escape_control_chars q.
Proof. apply (escape_control_chars_app [b] q). Qed.

(** C7. A byte of the control set {0x02, 0x03, 0x06, 0x15, 0x1B} alone is
    escaped to the two bytes [0x1B, b | 0x80]; any other byte alone is
    left as it is. *)
Theorem escape_coverage (b c : Z)
    (Hb : b ∈ [0x02; 0x03; 0x06; 0x15; 0x1B])
    (Hc : c ∉ [0x02; 0x03; 0x06; 0x15; 0x1B]) :
  escape_control_chars [b] = [0x1B; Z.lor b 0x80] /\
  escape_control_chars [c] = [c].
Proof.
  unfold escape_control_chars, in_tuple. cbn [fold_left].
  split.
  - by rewrite bool_decide_eq_true_2.
  - by rewrite bool_decide_eq_false_2.
Qed.

Lemma escape_coverage_witness :
  escape_control_chars [0x15] = [0x1B; Z.lor 0x15 0x80] /\
  escape_control_chars [0x95] = [0x95].
Proof.
  apply (escape_coverage 0x15 0x95).
  - apply (bool_decide_unpack _). vm_compute. exact I.
  - apply (bool_decide_unpack _). vm_compute. exact I.
Defined.

Lemma remove_escape_sequences_snoc (packet : list Z) (byte : Z) :
  remove_escape_sequences (packet ++ [byte])
  = new_packet
      (unescape_step
         (fold_left unescape_step packet
            {| new_packet := []; found_esc := false; found_sec := None |})
         byte).
Proof. unfold remove_escape_sequences. by rewrite fold_left_app. Qed.

(** C1 (at the input where the round trip breaks). Escaping [[0x02, 0x80]]
    gives [[0x1B, 0x82, 0x80]]; unescaping that gives [[0x02, 0x00]]: the
    flag set by the ESC is still set when the unescaped byte 0x80 is
    scanned, so its bit 7 is cleared as well. *)
Theorem unescape_escape_flag_not_reset :
  escape_control_chars [0x02; 0x80] = [0x1B; 0x82; 0x80] /\
  remove_escape_sequences (escape_control_chars [0x02; 0x80]) = [0x02; 0x00] /\
  remove_escape_sequences (escape_control_chars [0x02; 0x80]) <> [0x02; 0x80] /\
  found_esc
    (fold_left unescape_step [0x1B; 0x82]
       {| new_packet := []; found_esc := false; found_sec := None |})
  = true.
Proof. split_and!; [reflexivity|reflexivity|by vm_compute|reflexivity]. Qed.

(** Where the flag that stays set does no harm: on 7-bit data, clearing
    bit 7 of the bytes that follow an escape sequence changes nothing, and
    the round trip holds. *)
Lemma unescape_step_escape_7bit (b : Z) (st : unescape_locals) :
  0 ≤ b < 128 ->
  new_packet (fold_left unescape_step (escape_control_chars [b]) st)
  = new_packet st ++ [b].
Proof.
  intros Hb. unfold escape_control_chars, in_tuple. cbn [fold_left].
  case_bool_decide as Hin.
  - cbn [STX ETX ACK NACK ESC CONTROL_CHARS] in Hin.
    set_unfold in Hin.
    destruct Hin as [->|[->|[->|[->|[->|[]]]]]]; reflexivity.
  - assert (Hne : b <> 0x1B) by (intros E; apply Hin; rewrite E, !elem_of_cons; tauto).
    cbn [app insert_escape_sequence fold_left]. unfold unescape_step.
    apply Z.eqb_neq in Hne. cbn [ESC CONTROL_CHARS]. rewrite Hne.
    destruct (found_esc st); cbn [new_packet]; [|done].
    change 0x7f with (Z.ones 7). rewrite Z.land_ones by lia.
    rewrite Z.mod_small; [done|]. change (2 ^ 7) with 128. lia.
Qed.

Lemma unescape_escape_7bit_acc (x : list Z) (st : unescape_locals) :
  Forall (fun b => 0 ≤ b < 128) x ->
  new_packet (fold_left unescape_step (escape_control_chars x) st)
  = new_packet st ++ x.
Proof.
  intros Hx. revert st.
  induction Hx as [|b x Hb _ IH]; intros st.
  - cbn. by rewrite app_nil_r.
  - rewrite escape_control_chars_cons, fold_left_app, IH.
    rewrite unescape_step_escape_7bit by done. by rewrite <- app_assoc.
Qed.

Lemma unescape_escape_7bit (x : list Z) :
  Forall (fun b => 0 ≤ b < 128) x ->
  remove_escape_sequences (escape_control_chars x) = x.
Proof. intros Hx. unfold remove_escape_sequences. by rewrite unescape_escape_7bit_acc. Qed.

(** C3 (counterexample). On the one-byte input [[ESC]], whose last byte is
    an ESC that nothing follows, the call returns the empty sequence. *)
Lemma trailing_esc_returns :
  last [0x1B] = Some (ESC CONTROL_CHARS) /\
  remove_escape_sequences [0x1B] = [].
Proof. split; reflexivity. Qed.

(** C3 (amended). An ESC that ends the input is dropped: the call returns,
    and returns what it returns on the input without that last byte. *)
Theorem trailing_esc_dropped (packet : list Z) :
  remove_escape_sequences (packet ++ [ESC CONTROL_CHARS])
  = remove_escape_sequences packet.
Proof. by rewrite remove_escape_sequences_snoc. Qed.

(** ** The monad of warnings *)

Lemma bind_lift_Returns {A B} (a : A) (k : A -> M B) :
  lift (Returns a) ≫= k = k a.
Proof. unfold mbind, M_bind, lift. by destruct (k a). Qed.

Lemma bind_lift_Raises {A B} (e : exception) (k : A -> M B) :
  lift (Raises e) ≫= k = ([], Raises e).
Proof. reflexivity. Qed.

Lemma bind_Returns {A B} (w : list string) (a : A) (k : A -> M B) :
  (w, Returns a) ≫= k = (w ++ (k a).1, (k a).2).
Proof. unfold mbind, M_bind. by destruct (k a). Qed.

Lemma bind_Raises {A B} (w : list string) (e : exception) (k : A -> M B) :
  (w, Raises e) ≫= k = (w, Raises e).
Proof. reflexivity. Qed.

(** ** The command table *)

Section Registry.

Variable ags pgs : list value -> M (option (list Z)).

Lemma COMMAND_NAMES_eq :
  COMMAND_NAMES ags pgs
  = list_to_set
      ["get_status"; "move_absolute"; "move_delta"; "home"; "fault_reset";
       "get_comm_timeout"; "set_comm_timeout"].
Proof. unfold COMMAND_NAMES, _COMMANDS. by rewrite dom_list_to_map_L. Qed.

Lemma lookup_home :
  _COMMANDS ags pgs !! "home"
  = Some {| assemble := pass; parse := pass; number := 0x35 |}.
Proof. reflexivity. Qed.

Lemma lookup_move_delta :
  _COMMANDS ags pgs !! "move_delta"
  = Some {| assemble := _assemble_move_to_delta;
            parse := _parse_move_to_delta; number := 0x34 |}.
Proof. reflexivity. Qed.

Lemma lookup_set_comm_timeout :
  _COMMANDS ags pgs !! "set_comm_timeout"
  = Some {| assemble := _assemble_set_comm_timeout;
            parse := _parse_set_comm_timeout; number := 0x96 |}.
Proof. reflexivity. Qed.

(** What [_assemble_cmd_data_lrc] does for a registered command. *)
Lemma _assemble_cmd_data_lrc_registered (cmd_name : string) (c : command)
    (data : list value) :
  _COMMANDS ags pgs !! cmd_name = Some c ->
  _assemble_cmd_data_lrc ags pgs cmd_name data
  = (cmd_bytes ← lift (to_bytes (number c) 1 big false);
     data_bytes ← assemble c data;
     let packet :=
       match data_bytes with
       | Some data_bytes => cmd_bytes ++ data_bytes
       | None => cmd_bytes
       end in
     lrc ← lift (compute_lrc packet);
     mret (packet ++ lrc)).
Proof.
  intros Hc. unfold _assemble_cmd_data_lrc.
  rewrite bool_decide_eq_false_2.
  - unfold getitem. rewrite Hc. rewrite bind_lift_Returns. reflexivity.
  - intros Hn. apply Hn. unfold COMMAND_NAMES. apply elem_of_dom. by eexists.
Qed.

(** The command was not found: nothing else happens. *)
Lemma _assemble_cmd_data_lrc_unregistered (cmd_name : string)
    (data : list value) :
  cmd_name ∉ COMMAND_NAMES ags pgs ->
  _assemble_cmd_data_lrc ags pgs cmd_name data
  = ([], Raises (NotImplementedError (not_implemented_message cmd_name))).
Proof.
  intros Hn. unfold _assemble_cmd_data_lrc.
  by rewrite bool_decide_eq_true_2.
Qed.

(** A packet that was assembled is the command number, the data bytes
    of the assembler and the checksum of these. *)
Lemma _assemble_cmd_data_lrc_inv (cmd_name : string) (data : list value)
    (w : list string) (packet : list Z) :
  _assemble_cmd_data_lrc ags pgs cmd_name data = (w, Returns packet) ->
  exists (c : command) (data_bytes : option (list Z)),
    _COMMANDS ags pgs !! cmd_name = Some c /\
    is_byte (number c) /\
    assemble c data = (w, Returns data_bytes) /\
    packet = number c :: default [] data_bytes
             ++ [xor_fold (number c :: default [] data_bytes)].
Proof.
  intros H.
  destruct (decide (cmd_name ∈ COMMAND_NAMES ags pgs)) as [Hin|Hn];
    [|by rewrite _assemble_cmd_data_lrc_unregistered in H].
  unfold COMMAND_NAMES in Hin. apply elem_of_dom in Hin as [c Hc].
  rewrite (_assemble_cmd_data_lrc_registered _ c) in H by done.
  exists c.
  destruct (to_bytes (number c) 1 big false) as [cmd_bytes|e] eqn:Eb;
    [|discriminate].
  apply to_bytes_1_unsigned_inv in Eb as [Hb ->].
  rewrite bind_lift_Returns in H.
  destruct (assemble c data) as [w1 [data_bytes|e]]; [|discriminate].
  exists data_bytes. rewrite bind_Returns in H.
  assert (Ep : match data_bytes with
               | Some d => [number c] ++ d
               | None => [number c]
               end = number c :: default [] data_bytes)
    by (by destruct data_bytes).
  cbn zeta in H. rewrite Ep in H.
  destruct (compute_lrc (number c :: default [] data_bytes)) as [lrc|e]
    eqn:El; [|discriminate].
  apply compute_lrc_inv in El as [_ ->].
  rewrite bind_lift_Returns in H. cbn in H.
  rewrite app_nil_r in H. by simplify_eq.
Qed.

End Registry.

(** ** Assembling packets *)

(** C9. For a command name that is not in [COMMAND_NAMES], assembling
    raises the error that carries the name, in the base class for any
    implementation of the status assembler and in both variants, whatever
    the arguments are, and no assembler has run: no warning was emitted
    and the arguments were not looked at. *)
Theorem unknown_command_rejected
    (ags pgs : list value -> M (option (list Z))) (self : PTCR20.t)
    (cmd_name : string) (data : list value)
    (Hn : cmd_name ∉ COMMAND_NAMES PTHR90._assemble_get_status
                       PTHR90._parse_get_status) :
  let error := NotImplementedError (not_implemented_message cmd_name) in
  _assemble_cmd_data_lrc ags pgs cmd_name data = ([], Raises error) /\
  PTHR90.assemble_packet cmd_name data = ([], Raises error) /\
  PTCR20.assemble_packet self cmd_name data = ([], Raises error).
Proof.
  intros error. split_and!.
  - apply _assemble_cmd_data_lrc_unregistered.
    by rewrite COMMAND_NAMES_eq in Hn |- *.
  - unfold PTHR90.assemble_packet.
    by rewrite _assemble_cmd_data_lrc_unregistered.
  - unfold PTCR20.assemble_packet.
    by rewrite _assemble_cmd_data_lrc_unregistered.
Qed.

Lemma unknown_command_rejected_witness :
  let error :=
    NotImplementedError (not_implemented_message "nonexistent") in
  _assemble_cmd_data_lrc pass pass "nonexistent" [VInt 200]
  = ([], Raises error) /\
  PTHR90.assemble_packet "nonexistent" [VInt 200] = ([], Raises error) /\
  PTCR20.assemble_packet (PTCR20.new 5) "nonexistent" [VInt 200]
  = ([], Raises error).
Proof.
  apply (unknown_command_rejected pass pass (PTCR20.new 5) "nonexistent"
           [VInt 200]).
  apply (bool_decide_unpack _). vm_compute. exact I.
Defined.

(** C5. In the unaddressed variant, assembling "home" returns the four
    bytes [0x02, 0x35, 0x35, 0x03]: the command number 0x35, no data
    byte, the checksum of [[0x35]], which is 0x35, nothing escaped,
    between STX and ETX. *)
Theorem home_frame :
  PTHR90.assemble_packet "home" [] = ([], Returns [0x02; 0x35; 0x35; 0x03]) /\
  number <$> (_COMMANDS PTHR90._assemble_get_status
                PTHR90._parse_get_status !! "home") = Some 0x35 /\
  pass [] = ([], Returns None) /\
  compute_lrc [0x35] = Returns [0x35] /\
  escape_control_chars [0x35; 0x35] = [0x35; 0x35].
Proof. split_and!; reflexivity. Qed.

(** C6. Assembling "move_delta" with pan 10.0 and tilt [None] gives the
    data bytes [0x64, 0x00, 0x00, 0x00]; the command and data bytes are
    [0x34, 0x64, 0x00, 0x00, 0x00] and their checksum is
    0x50 = 0x34 xor 0x64. For float arguments each angle is multiplied by
    10 and truncated toward zero by [int] before it is encoded, pan
    first. *)
Theorem move_delta_encoding :
  _assemble_move_to_delta [VFloat 10; VNone]
  = ([], Returns (Some [0x64; 0x00; 0x00; 0x00])) /\
  compute_lrc [0x34; 0x64; 0x00; 0x00; 0x00] = Returns [0x50] /\
  Z.lxor 0x34 0x64 = 0x50 /\
  _assemble_cmd_data_lrc PTHR90._assemble_get_status PTHR90._parse_get_status
    "move_delta" [VFloat 10; VNone]
  = ([], Returns [0x34; 0x64; 0x00; 0x00; 0x00; 0x50]) /\
  (forall pan tilt : float,
     _assemble_move_to_delta [VFloat pan; VFloat tilt]
     = lift (pan ← int_of_float (pan * 10)%float;
             tilt ← int_of_float (tilt * 10)%float;
             pan_bytes ← int_to_bytes pan;
             tilt_bytes ← int_to_bytes tilt;
             mret (Some (pan_bytes ++ tilt_bytes)))) /\
  int_of_float (12.5 * 10)%float = Returns 125 /\
  int_of_float (0.75 * 10)%float = Returns 7 /\
  int_of_float (-0.75 * 10)%float = Returns (-7).
Proof.
  split_and!; try reflexivity.
  intros pan tilt.
  unfold _assemble_move_to_delta, bind_two_optional, is_None, mul10, int.
  unfold mbind, M_bind, outcome_bind, lift, mret, M_ret, outcome_ret.
  destruct (int_of_float (pan * 10)) as [p|e]; [|reflexivity].
  destruct (int_of_float (tilt * 10)) as [t|e]; [|reflexivity].
  destruct (int_to_bytes p) as [pb|e]; [|reflexivity].
  destruct (int_to_bytes t) as [tb|e]; reflexivity.
Qed.

Lemma bytearray_insert0_byte (b : Z) (a : list Z) :
  is_byte b -> bytearray_insert0 b a = Returns (b :: a).
Proof.
  unfold is_byte, bytearray_insert0, is_byteb. intros [H0 H1].
  apply Z.leb_le in H0. apply Z.ltb_lt in H1. by rewrite H0, H1.
Qed.

(** The frame of each variant, from the packet of the base class. *)
Lemma PTHR90_frame (cmd_name : string) (data : list value)
    (w : list string) (packet : list Z) :
  _assemble_cmd_data_lrc PTHR90._assemble_get_status PTHR90._parse_get_status
    cmd_name data = (w, Returns packet) ->
  PTHR90.assemble_packet cmd_name data
  = (w, Returns (STX CONTROL_CHARS :: escape_control_chars packet
                 ++ [ETX CONTROL_CHARS])).
Proof.
  intros H. unfold PTHR90.assemble_packet. rewrite H, bind_Returns.
  cbn. by rewrite app_nil_r.
Qed.

Lemma PTCR20_frame (self : PTCR20.t) (cmd_name : string) (data : list value)
    (w : list string) (packet : list Z) :
  is_byte (PTCR20.identity self) ->
  _assemble_cmd_data_lrc PTCR20._assemble_get_status PTCR20._parse_get_status
    cmd_name data = (w, Returns packet) ->
  PTCR20.assemble_packet self cmd_name data
  = (w, Returns (STX CONTROL_CHARS
                 :: escape_control_chars (PTCR20.identity self :: packet)
                 ++ [ETX CONTROL_CHARS])).
Proof.
  intros Hid H. unfold PTCR20.assemble_packet. rewrite H, bind_Returns.
  rewrite (bytearray_insert0_byte _ _ Hid), bind_lift_Returns.
  cbn. by rewrite app_nil_r.
Qed.

Lemma _assemble_set_comm_timeout_outside (timeout : Z) :
  timeout < 0 \/ 120 < timeout ->
  _assemble_set_comm_timeout [VInt timeout] = ([timeout_warning], Returns None).
Proof.
  intros H. unfold _assemble_set_comm_timeout, bind_one_arg, gt, lt.
  rewrite !bind_lift_Returns.
  destruct (120 <? timeout) eqn:E1.
  - reflexivity.
  - rewrite bind_lift_Returns.
    destruct (timeout <? 0) eqn:E2; [reflexivity|].
    apply Z.ltb_ge in E1, E2. lia.
Qed.

(** C2 (counterexample). Assembling "set_comm_timeout" with 200 does not
    fail: a warning is emitted and a frame is returned. *)
Lemma set_comm_timeout_200_returns_a_frame :
  PTHR90.assemble_packet "set_comm_timeout" [VInt 200]
  = ([timeout_warning], Returns [0x02; 0x96; 0x96; 0x03]).
Proof. reflexivity. Qed.

(** C2 (amended). For an integer timeout outside [0, 120] the assembler
    of "set_comm_timeout" emits one warning and returns [None]; nothing
    is raised, and [assemble_packet] returns the frame of the command
    number 0x96 and its checksum with no data byte, preceded in the
    addressed variant by the escaped identity byte. *)
Theorem set_comm_timeout_out_of_range (self : PTCR20.t) (timeout : Z)
    (Hid : is_byte (PTCR20.identity self))
    (Hout : timeout < 0 \/ 120 < timeout) :
  _assemble_set_comm_timeout [VInt timeout]
  = ([timeout_warning], Returns None) /\
  PTHR90.assemble_packet "set_comm_timeout" [VInt timeout]
  = ([timeout_warning], Returns [0x02; 0x96; 0x96; 0x03]) /\
  PTCR20.assemble_packet self "set_comm_timeout" [VInt timeout]
  = ([timeout_warning],
     Returns (0x02 :: escape_control_chars [PTCR20.identity self]
              ++ [0x96; 0x96; 0x03])).
Proof.
  pose proof (_assemble_set_comm_timeout_outside timeout Hout) as Ha.
  assert (Hp : forall ags pgs,
             _assemble_cmd_data_lrc ags pgs "set_comm_timeout" [VInt timeout]
             = ([timeout_warning], Returns [0x96; 0x96])).
  { intros ags pgs.
    rewrite (_assemble_cmd_data_lrc_registered ags pgs _ _ _
               (lookup_set_comm_timeout ags pgs)).
    cbn [assemble number]. rewrite Ha. reflexivity. }
  split_and!.
  - done.
  - by rewrite (PTHR90_frame _ _ _ _ (Hp _ _)).
  - rewrite (PTCR20_frame _ _ _ _ _ Hid (Hp _ _)).
    rewrite escape_control_chars_cons, <- app_assoc. reflexivity.
Qed.

Lemma set_comm_timeout_out_of_range_witness :
  _assemble_set_comm_timeout [VInt 200]
  = ([timeout_warning], Returns None) /\
  PTHR90.assemble_packet "set_comm_timeout" [VInt 200]
  = ([timeout_warning], Returns [0x02; 0x96; 0x96; 0x03]) /\
  PTCR20.assemble_packet (PTCR20.new 5) "set_comm_timeout" [VInt 200]
  = ([timeout_warning],
     Returns (0x02 :: escape_control_chars [5] ++ [0x96; 0x96; 0x03])).
Proof.
  apply (set_comm_timeout_out_of_range (PTCR20.new 5) 200).
  - unfold is_byte. simpl. lia.
  - lia.
Defined.

(** C4. Whenever the unaddressed variant assembles a frame, that frame is
    STX, the escaped body and ETX, where the body is the command number,
    the data bytes and the checksum of these two parts; and for an
    identity byte the addressed variant assembles, with the same
    warnings, STX, the escaped sequence made of the identity followed by
    that same body, and ETX: one more byte before escaping, placed before
    the command number, and outside the checksum. *)
Theorem identity_placement (self : PTCR20.t) (cmd_name : string)
    (data : list value) (w : list string) (frame : list Z)
    (Hid : is_byte (PTCR20.identity self))
    (Hframe : PTHR90.assemble_packet cmd_name data = (w, Returns frame)) :
  exists (c : command) (data_bytes : list Z),
    _COMMANDS PTHR90._assemble_get_status PTHR90._parse_get_status
      !! cmd_name = Some c /\
    let body := number c :: data_bytes ++ [xor_fold (number c :: data_bytes)] in
    frame = STX CONTROL_CHARS :: escape_control_chars body
            ++ [ETX CONTROL_CHARS] /\
    PTCR20.assemble_packet self cmd_name data
    = (w, Returns (STX CONTROL_CHARS
                   :: escape_control_chars (PTCR20.identity self :: body)
                   ++ [ETX CONTROL_CHARS])) /\
    escape_control_chars (PTCR20.identity self :: body)
    = escape_control_chars [PTCR20.identity self]
      ++ escape_control_chars body.
Proof.
  destruct (_assemble_cmd_data_lrc PTHR90._assemble_get_status
              PTHR90._parse_get_status cmd_name data)
    as [w0 [packet|e]] eqn:E.
  - rewrite (PTHR90_frame _ _ _ _ E) in Hframe.
    injection Hframe as -> <-.
    destruct (_assemble_cmd_data_lrc_inv _ _ _ _ _ _ E)
      as (c & data_bytes & Hc & _ & _ & ->).
    exists c, (default [] data_bytes). split; [done|].
    intros body. split_and!.
    + done.
    + by apply PTCR20_frame.
    + apply escape_control_chars_cons.
  - unfold PTHR90.assemble_packet in Hframe. by rewrite E in Hframe.
Qed.

Lemma identity_placement_witness :
  exists (c : command) (data_bytes : list Z),
    _COMMANDS PTHR90._assemble_get_status PTHR90._parse_get_status
      !! "fault_reset" = Some c /\
    let body := number c :: data_bytes ++ [xor_fold (number c :: data_bytes)] in
    [0x02; 0x31; 0x01; 0x00; 0x00; 0x00; 0x00; 0x30; 0x03]
    = STX CONTROL_CHARS :: escape_control_chars body
      ++ [ETX CONTROL_CHARS] /\
    PTCR20.assemble_packet (PTCR20.new 5) "fault_reset" []
    = ([], Returns (STX CONTROL_CHARS
                    :: escape_control_chars (5 :: body)
                    ++ [ETX CONTROL_CHARS])) /\
    escape_control_chars (5 :: body)
    = escape_control_chars [5] ++ escape_control_chars body.
Proof.
  apply (identity_placement (PTCR20.new 5) "fault_reset" [] []
           [0x02; 0x31; 0x01; 0x00; 0x00; 0x00; 0x00; 0x30; 0x03]).
  - unfold is_byte. simpl. lia.
  - reflexivity.
Defined.

(** * Further properties of the codec *)

(** ** Integer codec: bounds and the other round trip *)

(** X1. An integer outside [-32768, 32767] is not encoded:
    [int_to_bytes] raises [OverflowError]. *)
Theorem int_to_bytes_overflow (v : Z) (Hv : v < -32768 \/ 32767 < v) :
  int_to_bytes v = Raises OverflowError.
Proof.
  unfold int_to_bytes, to_bytes.
  change (256 ^ Z.of_nat 2) with 65536. change (65536 `div` 2) with 32768.
  match goal with |- context [if ?b then _ else _] => destruct b eqn:E end.
  - apply andb_true_iff in E as [E1%Z.leb_le E2%Z.ltb_lt]. lia.
  - reflexivity.
Qed.

Lemma int_to_bytes_overflow_witness :
  int_to_bytes 32768 = Raises OverflowError.
Proof. apply (int_to_bytes_overflow 32768). lia. Defined.

(** X2. Any two bytes decode to an integer of [-32768, 32767] whose
    encoding is these two bytes again. *)
Theorem int_to_bytes_bytes_to_int (lo hi : Z)
    (Hlo : is_byte lo) (Hhi : is_byte hi) :
  exists v : Z,
    bytes_to_int [lo; hi] = Returns v /\
    -32768 ≤ v ≤ 32767 /\
    int_to_bytes v = Returns [lo; hi].
Proof.
  unfold is_byte in *. unfold bytes_to_int, unpack_lt_h.
  eexists. split; [reflexivity|].
  assert (Hr : -32768 ≤ (if lo + 256 * hi <? 32768 then lo + 256 * hi
                         else lo + 256 * hi - 65536) ≤ 32767).
  { case_match eqn:E; [apply Z.ltb_lt in E|apply Z.ltb_ge in E]; lia. }
  split; [done|].
  rewrite int_to_bytes_in_range by done. do 2 f_equal.
  - case_match eqn:E; [apply Z.ltb_lt in E|apply Z.ltb_ge in E];
      Z.div_mod_to_equations; lia.
  - f_equal.
    case_match eqn:E; [apply Z.ltb_lt in E|apply Z.ltb_ge in E];
      Z.div_mod_to_equations; lia.
Qed.

Lemma int_to_bytes_bytes_to_int_witness :
  exists v : Z,
    bytes_to_int [0xd4; 0xfe] = Returns v /\
    -32768 ≤ v ≤ 32767 /\
    int_to_bytes v = Returns [0xd4; 0xfe].
Proof.
  apply (int_to_bytes_bytes_to_int 0xd4 0xfe); unfold is_byte; lia.
Defined.

(** X3. [bytes_to_int] raises [struct.error] on every input whose length
    is not 2, the empty one included. *)
Theorem bytes_to_int_wrong_length (b : list Z) (Hb : length b <> 2%nat) :
  bytes_to_int b = Raises StructError.
Proof. by destruct b as [|? [|? [|? ?]]]. Qed.

Lemma bytes_to_int_wrong_length_witness :
  bytes_to_int [0x01; 0x02; 0x03] = Raises StructError.
Proof. apply (bytes_to_int_wrong_length [0x01; 0x02; 0x03]). simpl. lia. Defined.

(** ** Checksum: concatenation and self-check *)

Lemma fold_xor_start (l : list Z) (a : Z) :
  fold_left (fun lrc byte => Z.lxor lrc byte) l a = Z.lxor a (xor_fold l).
Proof.
  unfold xor_fold. revert a.
  induction l as [|b l IH]; intros a; cbn [fold_left].
  - by rewrite Z.lxor_0_r.
  - rewrite IH, (IH (Z.lxor 0 b)), Z.lxor_0_l. by rewrite Z.lxor_assoc.
Qed.

Lemma xor_fold_app (l l' : list Z) :
  xor_fold (l ++ l') = Z.lxor (xor_fold l) (xor_fold l').
Proof.
  unfold xor_fold at 1. rewrite fold_left_app. fold (xor_fold l).
  apply fold_xor_start.
Qed.

Lemma xor_fold_self (l : list Z) : xor_fold (l ++ [xor_fold l]) = 0.
Proof.
  rewrite xor_fold_app. unfold xor_fold at 2. cbn [fold_left].
  by rewrite Z.lxor_0_l, Z.lxor_nilpotent.
Qed.

(** X4. The checksum of a concatenation is the XOR of the checksums of
    its parts. *)
Theorem compute_lrc_app (l l' : list Z) (x y : Z)
    (Hl : compute_lrc l = Returns [x]) (Hl' : compute_lrc l' = Returns [y]) :
  compute_lrc (l ++ l') = Returns [Z.lxor x y].
Proof.
  apply compute_lrc_inv in Hl as [Hx Ex], Hl' as [Hy Ey].
  injection Ex as ->. injection Ey as ->.
  unfold compute_lrc. cbn zeta. rewrite xor_fold_app.
  apply to_bytes_1_unsigned. by apply lxor_is_byte.
Qed.

Lemma compute_lrc_app_witness :
  compute_lrc ([0x34; 0x64] ++ [0x80; 0x01])
  = Returns [Z.lxor 0x50 0x81].
Proof.
  apply (compute_lrc_app [0x34; 0x64] [0x80; 0x01] 0x50 0x81); reflexivity.
Defined.

(** X5. A sequence followed by its own checksum has checksum 0: this is
    the check a receiver can run on command, data and LRC bytes. *)
Theorem compute_lrc_self_check (l lrc : list Z)
    (Hl : compute_lrc l = Returns lrc) :
  compute_lrc (l ++ lrc) = Returns [0].
Proof.
  apply compute_lrc_inv in Hl as [_ ->].
  unfold compute_lrc. cbn zeta. by rewrite xor_fold_self.
Qed.

Lemma compute_lrc_self_check_witness :
  compute_lrc ([0x34; 0x64; 0x00; 0x00; 0x00] ++ [0x50]) = Returns [0].
Proof.
  apply (compute_lrc_self_check [0x34; 0x64; 0x00; 0x00; 0x00] [0x50]).
  reflexivity.
Defined.

(** ** Escaping: what the output looks like *)

Lemma escape_single (b : Z) :
  escape_control_chars [b]
  = if in_tuple b CONTROL_CHARS then [0x1B; Z.lor b 0x80] else [b].
Proof.
  unfold escape_control_chars. cbn [fold_left].
  by destruct (in_tuple b CONTROL_CHARS).
Qed.

Lemma in_tuple_true (b : Z) :
  in_tuple b CONTROL_CHARS = true ->
  b = 0x02 \/ b = 0x03 \/ b = 0x06 \/ b = 0x15 \/ b = 0x1B.
Proof.
  unfold in_tuple. intros H%bool_decide_eq_true.
  cbn [STX ETX ACK NACK ESC CONTROL_CHARS] in H.
  rewrite !elem_of_cons, elem_of_nil in H. tauto.
Qed.

Lemma in_tuple_false (b : Z) :
  in_tuple b CONTROL_CHARS = false ->
  b <> 0x02 /\ b <> 0x03 /\ b <> 0x06 /\ b <> 0x15 /\ b <> 0x1B.
Proof.
  unfold in_tuple. intros H%bool_decide_eq_false.
  cbn [STX ETX ACK NACK ESC CONTROL_CHARS] in H.
  rewrite !elem_of_cons, elem_of_nil in H. tauto.
Qed.

Lemma lor_control_char (b : Z) :
  in_tuple b CONTROL_CHARS = true -> Z.lor b 0x80 = b + 128.
Proof.
  intros H%in_tuple_true. by destruct H as [->|[->|[->|[->| ->]]]].
Qed.

(** X6. A packet with no control character is returned as it is, as the
    docstring says; a packet with one is returned strictly longer. *)
Theorem escape_control_chars_unchanged (p q : list Z)
    (Hp : Forall (fun b => in_tuple b CONTROL_CHARS = false) p)
    (Hq : Exists (fun b => in_tuple b CONTROL_CHARS = true) q) :
  escape_control_chars p = p /\
  (length q < length (escape_control_chars q))%nat.
Proof.
  split.
  - induction Hp as [|b p Hb _ IH]; [reflexivity|].
    by rewrite escape_control_chars_cons, escape_single, Hb, IH.
  - assert (Hle : forall l : list Z,
               (length l ≤ length (escape_control_chars l))%nat).
    { induction l as [|b l IH]; [done|].
      rewrite escape_control_chars_cons, escape_single, length_app.
      destruct (in_tuple b CONTROL_CHARS); cbn [length]; lia. }
    induction Hq as [b q Hb|b q _ IH];
      rewrite escape_control_chars_cons, escape_single, length_app.
    + rewrite Hb. specialize (Hle q). cbn [length]. lia.
    + destruct (in_tuple b CONTROL_CHARS); cbn [length]; lia.
Qed.

Lemma escape_control_chars_unchanged_witness :
  escape_control_chars [0x35; 0x96; 0x80] = [0x35; 0x96; 0x80] /\
  (length [0x35; 0x03]%Z < length (escape_control_chars [0x35; 0x03]%Z))%nat.
Proof.
  apply (escape_control_chars_unchanged [0x35; 0x96; 0x80] [0x35; 0x03]).
  - repeat constructor.
  - apply Exists_cons_tl, Exists_cons_hd. reflexivity.
Defined.

Lemma escape_is_byte (p : list Z) :
  Forall is_byte p -> Forall is_byte (escape_control_chars p).
Proof.
  induction 1 as [|b p Hb _ IH]; [done|].
  rewrite escape_control_chars_cons, escape_single.
  apply Forall_app. split; [|done].
  destruct (in_tuple b CONTROL_CHARS) eqn:E; [|by apply Forall_singleton].
  rewrite (lor_control_char b E). apply in_tuple_true in E.
  rewrite !Forall_cons, Forall_nil. unfold is_byte. lia.
Qed.

Lemma escape_length_bounds (p : list Z) :
  (length p ≤ length (escape_control_chars p) ≤ 2 * length p)%nat.
Proof.
  induction p as [|b p IH]; [cbn; lia|].
  rewrite escape_control_chars_cons, escape_single, length_app.
  destruct (in_tuple b CONTROL_CHARS); cbn [length]; lia.
Qed.

(** X7. Escaping keeps bytes bytes, never shortens a packet and at most
    doubles its length. *)
Theorem escape_control_chars_bytes (p : list Z) (Hp : Forall is_byte p) :
  Forall is_byte (escape_control_chars p) /\
  (length p ≤ length (escape_control_chars p) ≤ 2 * length p)%nat.
Proof. split; [by apply escape_is_byte|apply escape_length_bounds]. Qed.

Lemma escape_control_chars_bytes_witness :
  Forall is_byte (escape_control_chars [0x1B; 0xff]) /\
  (length [0x1B; 0xff]%Z ≤ length (escape_control_chars [0x1B; 0xff]%Z)
   ≤ 2 * length [0x1B; 0xff]%Z)%nat.
Proof.
  apply (escape_control_chars_bytes [0x1B; 0xff]).
  rewrite !Forall_cons, Forall_nil. unfold is_byte. lia.
Defined.

Lemma escape_no_delimiter (p : list Z) :
  Forall
    (fun b =>
       b ∉ [STX CONTROL_CHARS; ETX CONTROL_CHARS; ACK CONTROL_CHARS;
            NACK CONTROL_CHARS])
    (escape_control_chars p).
Proof.
  induction p as [|b p IH]; [constructor|].
  rewrite escape_control_chars_cons, escape_single.
  apply Forall_app. split; [|done].
  cbn [STX ETX ACK NACK CONTROL_CHARS].
  destruct (in_tuple b CONTROL_CHARS) eqn:E.
  - rewrite (lor_control_char b E). apply in_tuple_true in E.
    rewrite !Forall_cons, Forall_nil, !elem_of_cons, !elem_of_nil. lia.
  - apply in_tuple_false in E.
    rewrite Forall_singleton, !elem_of_cons, elem_of_nil. tauto.
Qed.

(** X8. The escaped packet holds no STX, ETX, ACK or NACK, whatever the
    packet was: the only control character left in it is ESC. *)
Theorem escape_control_chars_no_delimiter (p : list Z) :
  Forall
    (fun b =>
       b ∉ [STX CONTROL_CHARS; ETX CONTROL_CHARS; ACK CONTROL_CHARS;
            NACK CONTROL_CHARS])
    (escape_control_chars p).
Proof. apply escape_no_delimiter. Qed.

Lemma escape_head_ctrl (a b : Z) (x y : list Z) :
  in_tuple a CONTROL_CHARS = true -> in_tuple b CONTROL_CHARS = true ->
  escape_control_chars (a :: x) = escape_control_chars (b :: y) ->
  a = b /\ escape_control_chars x = escape_control_chars y.
Proof.
  intros Ha Hb.
  rewrite (escape_control_chars_cons a), (escape_control_chars_cons b).
  rewrite !escape_single, Ha, Hb. cbn [app]. intros H.
  injection H as H1 H2. split; [|done].
  rewrite (lor_control_char a Ha), (lor_control_char b Hb) in H1. lia.
Qed.

(** X9. Escaping loses nothing: two packets with the same escaped form
    are the same packet. *)
Theorem escape_control_chars_injective (x y : list Z)
    (H : escape_control_chars x = escape_control_chars y) :
  x = y.
Proof.
  revert y H. induction x as [|a x IH]; intros [|b y] H.
  - reflexivity.
  - rewrite escape_control_chars_cons, escape_single in H.
    destruct (in_tuple b CONTROL_CHARS); discriminate H.
  - rewrite escape_control_chars_cons, escape_single in H.
    destruct (in_tuple a CONTROL_CHARS); discriminate H.
  - destruct (in_tuple a CONTROL_CHARS) eqn:Ea,
      (in_tuple b CONTROL_CHARS) eqn:Eb.
    + destruct (escape_head_ctrl a b x y Ea Eb H) as [-> H'].
      f_equal. by apply IH.
    + rewrite (escape_control_chars_cons a),
        (escape_control_chars_cons b), !escape_single, Ea, Eb in H.
      injection H as H1 _. apply in_tuple_false in Eb. subst b. tauto.
    + rewrite (escape_control_chars_cons a),
        (escape_control_chars_cons b), !escape_single, Ea, Eb in H.
      injection H as H1 _. apply in_tuple_false in Ea. subst a. tauto.
    + rewrite (escape_control_chars_cons a),
        (escape_control_chars_cons b), !escape_single, Ea, Eb in H.
      injection H as -> H'. f_equal. by apply IH.
Qed.

Lemma escape_control_chars_injective_witness : [0x02; 0x82] = [0x02; 0x82].
Proof.
  apply (escape_control_chars_injective [0x02; 0x82] [0x02; 0x82]).
  reflexivity.
Defined.

(** ** Unescaping: what the loop computes *)

(** While no ESC has been seen, bytes are copied. *)
Lemma unescape_loop_before_esc (p : list Z) (st : unescape_locals) :
  ESC CONTROL_CHARS ∉ p -> found_esc st = false ->
  new_packet (fold_left unescape_step p st) = new_packet st ++ p /\
  found_esc (fold_left unescape_step p st) = false.
Proof.
  revert st. induction p as [|b p IH]; intros st Hp Hst; cbn [fold_left].
  - by rewrite app_nil_r.
  - apply not_elem_of_cons in Hp as [Hb Hp].
    assert (Hs : unescape_step st b
                 = {| new_packet := new_packet st ++ [b];
                      found_esc := found_esc st;
                      found_sec := found_sec st |}).
    { unfold unescape_step. rewrite (proj2 (Z.eqb_neq b _)) by congruence.
      by rewrite Hst. }
    rewrite Hs.
    destruct (IH {| new_packet := new_packet st ++ [b];
                    found_esc := found_esc st;
                    found_sec := found_sec st |} Hp Hst) as [-> ->].
    cbn [new_packet]. by rewrite <- app_assoc.
Qed.

(** Once an ESC has been seen the flag stays set: every later ESC is
    dropped and every other byte loses bit 7. *)
Lemma unescape_loop_after_esc (r : list Z) (st : unescape_locals) :
  found_esc st = true ->
  new_packet (fold_left unescape_step r st)
  = new_packet st
    ++ map (fun b => Z.land b 0x7f)
         (filter (fun b => b <> ESC CONTROL_CHARS) r) /\
  found_esc (fold_left unescape_step r st) = true.
Proof.
  revert st. induction r as [|b r IH]; intros st Hst; cbn [fold_left].
  - cbn. by rewrite app_nil_r.
  - unfold unescape_step at 2 4. destruct (Z.eqb_spec b (ESC CONTROL_CHARS)) as [E|E].
    + rewrite filter_cons_False by (intros H; by apply H).
      apply (IH {| new_packet := new_packet st; found_esc := true;
                   found_sec := found_sec st |}). reflexivity.
    + rewrite filter_cons_True by done. rewrite Hst.
      destruct (IH {| new_packet := new_packet st ++ [Z.land b 0x7f];
                      found_esc := true; found_sec := Some false |}
                  eq_refl) as [-> ->].
      cbn [new_packet map]. by rewrite <- app_assoc.
Qed.

(** X10. A packet with no ESC byte is returned as it is, as the docstring
    says. *)
Theorem remove_escape_sequences_unchanged (packet : list Z)
    (H : ESC CONTROL_CHARS ∉ packet) :
  remove_escape_sequences packet = packet.
Proof.
  unfold remove_escape_sequences.
  by destruct (unescape_loop_before_esc packet
                 {| new_packet := []; found_esc := false; found_sec := None |}
                 H eq_refl) as [-> _].
Qed.

Lemma remove_escape_sequences_unchanged_witness :
  remove_escape_sequences [0x02; 0x96; 0x80; 0x03] = [0x02; 0x96; 0x80; 0x03].
Proof.
  apply (remove_escape_sequences_unchanged [0x02; 0x96; 0x80; 0x03]).
  apply (bool_decide_unpack _). vm_compute. exact I.
Defined.

(** X11. The result on a packet with an ESC: the bytes before the first
    ESC unchanged, then, of what follows it, every ESC dropped and every
    other byte with bit 7 cleared, whether an ESC precedes it or not. *)
Theorem remove_escape_sequences_after_first_esc (p r : list Z)
    (Hp : ESC CONTROL_CHARS ∉ p) :
  remove_escape_sequences (p ++ ESC CONTROL_CHARS :: r)
  = p ++ map (fun b => Z.land b 0x7f)
           (filter (fun b => b <> ESC CONTROL_CHARS) r).
Proof.
  unfold remove_escape_sequences. rewrite fold_left_app. cbn [fold_left].
  set (st := fold_left unescape_step p _).
  destruct (unescape_loop_before_esc p
              {| new_packet := []; found_esc := false; found_sec := None |}
              Hp eq_refl) as [Hn _].
  fold st in Hn.
  assert (Hs : unescape_step st (ESC CONTROL_CHARS)
               = {| new_packet := new_packet st; found_esc := true;
                    found_sec := found_sec st |}) by reflexivity.
  rewrite Hs.
  destruct (unescape_loop_after_esc r
              {| new_packet := new_packet st; found_esc := true;
                 found_sec := found_sec st |} eq_refl) as [-> _].
  cbn [new_packet]. by rewrite Hn.
Qed.

Lemma remove_escape_sequences_after_first_esc_witness :
  remove_escape_sequences ([0x96] ++ ESC CONTROL_CHARS :: [0x9B; 0x8D; 0x1B; 0xff])
  = [0x96] ++ map (fun b => Z.land b 0x7f)
                (filter (fun b => b <> ESC CONTROL_CHARS)
                   [0x9B; 0x8D; 0x1B; 0xff]).
Proof.
  apply (remove_escape_sequences_after_first_esc [0x96]
           [0x9B; 0x8D; 0x1B; 0xff]).
  apply (bool_decide_unpack _). vm_compute. exact I.
Defined.

(** X12. On 7-bit data (every byte below 0x80) unescaping undoes
    escaping. *)
Theorem unescape_escape_roundtrip_7bit (x : list Z)
    (Hx : Forall (fun b => 0 ≤ b < 128) x) :
  remove_escape_sequences (escape_control_chars x) = x.
Proof.
  unfold remove_escape_sequences. by rewrite unescape_escape_7bit_acc.
Qed.

Lemma unescape_escape_roundtrip_7bit_witness :
  remove_escape_sequences (escape_control_chars [0x02; 0x1B; 0x7f; 0x03])
  = [0x02; 0x1B; 0x7f; 0x03].
Proof.
  apply (unescape_escape_roundtrip_7bit [0x02; 0x1B; 0x7f; 0x03]).
  rewrite !Forall_cons, Forall_nil. lia.
Defined.

(** ** The assemblers: data bytes, warnings and errors *)

Lemma int_to_bytes_cases (v : Z) :
  (-32768 ≤ v ≤ 32767 /\
   exists lo hi : Z,
     is_byte lo /\ is_byte hi /\ int_to_bytes v = Returns [lo; hi] /\
     bytes_to_int [lo; hi] = Returns v) \/
  ((v < -32768 \/ 32767 < v) /\ int_to_bytes v = Raises OverflowError).
Proof.
  destruct (decide (-32768 ≤ v ≤ 32767)) as [Hv|Hv].
  - left. split; [done|]. rewrite int_to_bytes_in_range by done.
    eexists _, _. split_and!; [| |reflexivity|].
    + unfold is_byte. apply Z.mod_pos_bound. lia.
    + unfold is_byte. apply Z.mod_pos_bound. lia.
    + unfold bytes_to_int, unpack_lt_h. f_equal.
      case_match; Z.div_mod_to_equations; lia.
  - right. split; [lia|].
    unfold int_to_bytes, to_bytes.
    change (256 ^ Z.of_nat 2) with 65536. change (65536 `div` 2) with 32768.
    match goal with |- context [if ?b then _ else _] => destruct b eqn:E end;
      [|reflexivity].
    apply andb_true_iff in E as [E1%Z.leb_le E2%Z.ltb_lt]. lia.
Qed.

Lemma int_of_float_raises (f : float) (e : exception) :
  int_of_float f = Raises e -> e = OverflowError \/ e = ValueError.
Proof.
  unfold int_of_float. destruct (Prim2SF f) as [s|s| |s m x];
    [discriminate| | |destruct s; discriminate]; intros [= <-]; tauto.
Qed.

(** The two statements [pan = int(pan * 10)] on a value that is not
    [None]. *)
Lemma tenths_raises (v : value) (e : exception) :
  v <> VNone -> mul10 v ≫= int = Raises e ->
  e = OverflowError \/ e = ValueError.
Proof.
  destruct v as [|z|f]; [done|discriminate|].
  intros _. apply int_of_float_raises.
Qed.

Lemma pass_outcome (data : list value) :
  (data = [] /\ pass data = ([], Returns None)) \/
  (data <> [] /\ pass data = ([], Raises TypeError)).
Proof. destruct data; [by left|by right]. Qed.

Lemma _assemble_fault_reset_outcome (data : list value) :
  (data = [] /\
   _assemble_fault_reset data
   = ([], Returns (Some [0x01; 0x00; 0x00; 0x00; 0x00]))) \/
  (data <> [] /\ _assemble_fault_reset data = ([], Raises TypeError)).
Proof. destruct data; [by left|by right]. Qed.

Lemma _assemble_get_comm_timeout_outcome (data : list value) :
  (data = [] /\
   _assemble_get_comm_timeout data = ([], Returns (Some [0x80]))) \/
  (data <> [] /\ _assemble_get_comm_timeout data = ([], Raises TypeError)).
Proof. destruct data; [by left|by right]. Qed.

Lemma _assemble_set_comm_timeout_inside (timeout : Z) :
  0 ≤ timeout ≤ 120 ->
  _assemble_set_comm_timeout [VInt timeout]
  = ([], Returns (Some [timeout])).
Proof.
  intros H. unfold _assemble_set_comm_timeout, bind_one_arg, gt, lt.
  rewrite !bind_lift_Returns.
  rewrite (proj2 (Z.ltb_ge 120 timeout)) by lia.
  rewrite bind_lift_Returns.
  rewrite (proj2 (Z.ltb_ge timeout 0)) by lia.
  unfold to_bytes_default.
  rewrite to_bytes_1_unsigned by (unfold is_byte; lia).
  by rewrite bind_lift_Returns.
Qed.

Lemma _assemble_set_comm_timeout_outcome (data : list value) :
  (exists timeout : Z,
     0 ≤ timeout ≤ 120 /\ data = [VInt timeout] /\
     _assemble_set_comm_timeout data = ([], Returns (Some [timeout]))) \/
  _assemble_set_comm_timeout data = ([timeout_warning], Returns None) \/
  _assemble_set_comm_timeout data = ([], Raises TypeError) \/
  _assemble_set_comm_timeout data = ([], Raises AttributeError).
Proof.
  destruct data as [|v [|? ?]];
    [right; right; left; reflexivity| |right; right; left; reflexivity].
  destruct v as [|z|f].
  - right; right; left; reflexivity.
  - destruct (decide (0 ≤ z ≤ 120)) as [Hz|Hz].
    + left. exists z. split; [done|]. split; [done|].
      by apply _assemble_set_comm_timeout_inside.
    + right; left. apply _assemble_set_comm_timeout_outside. lia.
  - unfold _assemble_set_comm_timeout, bind_one_arg, gt, lt.
    rewrite !bind_lift_Returns.
    destruct (PrimFloat.ltb _ f); [right; left; reflexivity|].
    rewrite bind_lift_Returns.
    destruct (PrimFloat.ltb f _); [right; left; reflexivity|].
    right; right; right; reflexivity.
Qed.

Lemma bind_two_optional_raises (data : list value) (e : exception) :
  bind_two_optional data = Raises e -> e = TypeError.
Proof. destruct data as [|? [|? [|? ?]]]; try discriminate. by intros [= <-]. Qed.

(** What either move assembler can do: no warning, and four data bytes
    or one of three errors. *)
Lemma move_outcome (f : list value -> M (option (list Z)))
    (data : list value) (w : list string) (r : outcome (option (list Z))) :
  f = _assemble_move_to_delta \/ f = _assemble_move_to_entered ->
  f data = (w, r) ->
  w = [] /\
  ((exists b0 b1 b2 b3 : Z,
      r = Returns (Some [b0; b1; b2; b3]) /\
      Forall is_byte [b0; b1; b2; b3]) \/
   r = Raises TypeError \/ r = Raises ValueError \/ r = Raises OverflowError).
Proof.
  intros [-> | ->] H;
    [unfold _assemble_move_to_delta in H
    |unfold _assemble_move_to_entered in H].
  all: destruct (bind_two_optional data) as [[pan tilt]|e] eqn:Ed;
    [|apply bind_two_optional_raises in Ed as ->;
      rewrite bind_lift_Raises in H; injection H as <- <-; tauto].
  all: rewrite bind_lift_Returns in H; cbv beta iota zeta in H.
  all: match type of H with
       | context [lift (mul10 ?v ≫= int)] =>
           assert (Hpn : v <> VNone) by (by destruct pan);
           destruct (mul10 v ≫= int) as [p|e] eqn:Ep;
           [|apply (tenths_raises _ _ Hpn) in Ep as [-> | ->];
             rewrite bind_lift_Raises in H; injection H as <- <-; tauto]
       end.
  all: rewrite bind_lift_Returns in H.
  all: match type of H with
       | context [lift (mul10 ?v ≫= int)] =>
           assert (Htn : v <> VNone) by (by destruct tilt);
           destruct (mul10 v ≫= int) as [t|e] eqn:Et;
           [|apply (tenths_raises _ _ Htn) in Et as [-> | ->];
             rewrite bind_lift_Raises in H; injection H as <- <-; tauto]
       end.
  all: rewrite bind_lift_Returns in H.
  all: destruct (int_to_bytes_cases p)
         as [(_ & p0 & p1 & Hp0 & Hp1 & Eb & _)|[_ Eb]];
    rewrite Eb in H;
    [|rewrite bind_lift_Raises in H; injection H as <- <-; tauto].
  all: rewrite bind_lift_Returns in H.
  all: destruct (int_to_bytes_cases t)
         as [(_ & t0 & t1 & Ht0 & Ht1 & Eb' & _)|[_ Eb']];
    rewrite Eb' in H;
    [|rewrite bind_lift_Raises in H; injection H as <- <-; tauto].
  all: rewrite bind_lift_Returns in H; injection H as <- <-.
  all: split; [done|]; left; exists p0, p1, t0, t1; split; [done|].
  all: by rewrite !Forall_cons, Forall_nil.
Qed.

(** On integer degrees, either move assembler encodes ten times each
    angle. *)
Lemma move_integers (f : list value -> M (option (list Z))) (pan tilt : Z) :
  f = _assemble_move_to_delta \/ f = _assemble_move_to_entered ->
  f [VInt pan; VInt tilt]
  = lift (pan_bytes ← int_to_bytes (pan * 10);
          tilt_bytes ← int_to_bytes (tilt * 10);
          mret (Some (pan_bytes ++ tilt_bytes))).
Proof.
  intros [-> | ->];
    [unfold _assemble_move_to_delta|unfold _assemble_move_to_entered].
  all: unfold bind_two_optional, is_None, mul10, int.
  all: unfold mbind, M_bind, outcome_bind, lift, mret, M_ret, outcome_ret.
  all: destruct (int_to_bytes (pan * 10)) as [pb|e]; [|reflexivity].
  all: destruct (int_to_bytes (tilt * 10)) as [tb|e]; reflexivity.
Qed.

(** X13. Whatever the arguments, a move assembler that returns has
    emitted no warning and returns exactly four data bytes. *)
Theorem move_data_four_bytes (f : list value -> M (option (list Z)))
    (data : list value) (w : list string) (r : option (list Z))
    (Hf : f = _assemble_move_to_delta \/ f = _assemble_move_to_entered)
    (H : f data = (w, Returns r)) :
  w = [] /\
  exists b0 b1 b2 b3 : Z,
    r = Some [b0; b1; b2; b3] /\ Forall is_byte [b0; b1; b2; b3].
Proof.
  destruct (move_outcome f data w (Returns r) Hf H)
    as [-> [(b0 & b1 & b2 & b3 & [= ->] & Hb)|[?|[?|?]]]]; try discriminate.
  split; [done|]. by exists b0, b1, b2, b3.
Qed.

Lemma move_data_four_bytes_witness :
  [] = @nil string /\
  exists b0 b1 b2 b3 : Z,
    Some [0x0f; 0x27; 0x9c; 0xff] = Some [b0; b1; b2; b3] /\
    Forall is_byte [b0; b1; b2; b3].
Proof.
  apply (move_data_four_bytes _assemble_move_to_entered [VNone; VFloat (-10)]
           [] (Some [0x0f; 0x27; 0x9c; 0xff])).
  - right. reflexivity.
  - reflexivity.
Defined.

(** X14. Integer degrees from -3276 to 3276 are accepted on both axes by
    both move assemblers, the documented ranges of 360 and 180 degrees
    are not checked, and each pair of data bytes decodes to ten times
    the angle, pan first. *)
Theorem move_integer_degrees (f : list value -> M (option (list Z)))
    (pan tilt : Z)
    (Hf : f = _assemble_move_to_delta \/ f = _assemble_move_to_entered)
    (Hpan : -3276 ≤ pan ≤ 3276) (Htilt : -3276 ≤ tilt ≤ 3276) :
  exists p0 p1 t0 t1 : Z,
    f [VInt pan; VInt tilt] = ([], Returns (Some [p0; p1; t0; t1])) /\
    bytes_to_int [p0; p1] = Returns (pan * 10) /\
    bytes_to_int [t0; t1] = Returns (tilt * 10).
Proof.
  rewrite (move_integers f pan tilt Hf).
  destruct (int_to_bytes_cases (pan * 10))
    as [(_ & p0 & p1 & _ & _ & -> & Dp)|[? _]]; [|lia].
  destruct (int_to_bytes_cases (tilt * 10))
    as [(_ & t0 & t1 & _ & _ & -> & Dt)|[? _]]; [|lia].
  by exists p0, p1, t0, t1.
Qed.

Lemma move_integer_degrees_witness :
  exists p0 p1 t0 t1 : Z,
    _assemble_move_to_delta [VInt 400; VInt (-200)]
    = ([], Returns (Some [p0; p1; t0; t1])) /\
    bytes_to_int [p0; p1] = Returns (400 * 10) /\
    bytes_to_int [t0; t1] = Returns (-200 * 10).
Proof.
  apply (move_integer_degrees _assemble_move_to_delta 400 (-200)).
  - left. reflexivity.
  - lia.
  - lia.
Defined.

(** X15. An integer angle below -3276 or above 3276 on either axis makes
    both move assemblers raise [OverflowError]. *)
Theorem move_integer_overflow (f : list value -> M (option (list Z)))
    (pan tilt : Z)
    (Hf : f = _assemble_move_to_delta \/ f = _assemble_move_to_entered)
    (Hout : pan < -3276 \/ 3276 < pan \/ tilt < -3276 \/ 3276 < tilt) :
  f [VInt pan; VInt tilt] = ([], Raises OverflowError).
Proof.
  rewrite (move_integers f pan tilt Hf).
  destruct (int_to_bytes_cases (pan * 10))
    as [(Hp & p0 & p1 & _ & _ & -> & _)|[_ ->]]; [|reflexivity].
  destruct (int_to_bytes_cases (tilt * 10))
    as [(Ht & _)|[_ ->]]; [lia|reflexivity].
Qed.

Lemma move_integer_overflow_witness :
  _assemble_move_to_entered [VInt 0; VInt 3277] = ([], Raises OverflowError).
Proof.
  apply (move_integer_overflow _assemble_move_to_entered 0 3277).
  - right. reflexivity.
  - lia.
Defined.

(** ** The entries of the command table *)

Section TableEntries.

Variable ags pgs : list value -> M (option (list Z)).

Lemma lookup_get_status :
  _COMMANDS ags pgs !! "get_status"
  = Some {| assemble := ags; parse := pgs; number := 0x31 |}.
Proof. reflexivity. Qed.

Lemma lookup_move_absolute :
  _COMMANDS ags pgs !! "move_absolute"
  = Some {| assemble := _assemble_move_to_entered;
            parse := _parse_move_to_entered; number := 0x33 |}.
Proof. reflexivity. Qed.

Lemma lookup_fault_reset :
  _COMMANDS ags pgs !! "fault_reset"
  = Some {| assemble := _assemble_fault_reset;
            parse := _parse_fault_reset; number := 0x31 |}.
Proof. reflexivity. Qed.

Lemma lookup_get_comm_timeout :
  _COMMANDS ags pgs !! "get_comm_timeout"
  = Some {| assemble := _assemble_get_comm_timeout;
            parse := _parse_get_comm_timeout; number := 0x96 |}.
Proof. reflexivity. Qed.

(** The seven entries, and nothing else. *)
Lemma table_entry (cmd_name : string) (c : command) :
  _COMMANDS ags pgs !! cmd_name = Some c ->
  (cmd_name = "get_status" /\ assemble c = ags /\ number c = 0x31) \/
  (cmd_name = "move_absolute" /\ assemble c = _assemble_move_to_entered /\
   number c = 0x33) \/
  (cmd_name = "move_delta" /\ assemble c = _assemble_move_to_delta /\
   number c = 0x34) \/
  (cmd_name = "home" /\ assemble c = pass /\ number c = 0x35) \/
  (cmd_name = "fault_reset" /\ assemble c = _assemble_fault_reset /\
   number c = 0x31) \/
  (cmd_name = "get_comm_timeout" /\ assemble c = _assemble_get_comm_timeout /\
   number c = 0x96) \/
  (cmd_name = "set_comm_timeout" /\ assemble c = _assemble_set_comm_timeout /\
   number c = 0x96).
Proof.
  intros Hc.
  assert (Hin : cmd_name ∈ COMMAND_NAMES ags pgs)
    by (unfold COMMAND_NAMES; apply elem_of_dom; by eexists).
  rewrite COMMAND_NAMES_eq, elem_of_list_to_set, !elem_of_cons,
    elem_of_nil in Hin.
  destruct Hin as [->|[->|[->|[->|[->|[->|[->|[]]]]]]]].
  - rewrite lookup_get_status in Hc. injection Hc as <-. tauto.
  - rewrite lookup_move_absolute in Hc. injection Hc as <-. tauto.
  - rewrite lookup_move_delta in Hc. injection Hc as <-. tauto.
  - rewrite lookup_home in Hc. injection Hc as <-. tauto.
  - rewrite lookup_fault_reset in Hc. injection Hc as <-. tauto.
  - rewrite lookup_get_comm_timeout in Hc. injection Hc as <-. tauto.
  - rewrite lookup_set_comm_timeout in Hc. injection Hc as <-. tauto.
Qed.

End TableEntries.

(** What an assembler of the table of either variant can do. *)
Lemma table_assemble_outcome (cmd_name : string) (c : command)
    (data : list value) (w : list string) (r : outcome (option (list Z))) :
  _COMMANDS pass pass !! cmd_name = Some c ->
  assemble c data = (w, r) ->
  (w = [] \/
   (cmd_name = "set_comm_timeout" /\ w = [timeout_warning] /\
    r = Returns None)) /\
  (r = Returns None \/
   (exists d : list Z, r = Returns (Some d) /\ Forall is_byte d) \/
   r = Raises TypeError \/ r = Raises ValueError \/
   r = Raises OverflowError \/ r = Raises AttributeError).
Proof.
  intros Hc H.
  destruct (table_entry pass pass cmd_name c Hc)
    as [(-> & E & _)|[(-> & E & _)|[(-> & E & _)|[(-> & E & _)|
        [(-> & E & _)|[(-> & E & _)|(-> & E & _)]]]]]];
    rewrite E in H; clear E.
  - destruct (pass_outcome data) as [[_ E]|[_ E]];
      rewrite E in H; injection H as <- <-; tauto.
  - destruct (move_outcome _ data w r (or_intror eq_refl) H)
      as [-> [(b0 & b1 & b2 & b3 & -> & Hb)|?]]; [|tauto].
    split; [tauto|]. right; left. by eexists.
  - destruct (move_outcome _ data w r (or_introl eq_refl) H)
      as [-> [(b0 & b1 & b2 & b3 & -> & Hb)|?]]; [|tauto].
    split; [tauto|]. right; left. by eexists.
  - destruct (pass_outcome data) as [[_ E]|[_ E]];
      rewrite E in H; injection H as <- <-; tauto.
  - destruct (_assemble_fault_reset_outcome data) as [[_ E]|[_ E]];
      rewrite E in H; injection H as <- <-; [|tauto].
    split; [tauto|]. right; left. eexists. split; [done|].
    rewrite !Forall_cons, Forall_nil. unfold is_byte. lia.
  - destruct (_assemble_get_comm_timeout_outcome data) as [[_ E]|[_ E]];
      rewrite E in H; injection H as <- <-; [|tauto].
    split; [tauto|]. right; left. eexists. split; [done|].
    rewrite Forall_singleton. unfold is_byte. lia.
  - destruct (_assemble_set_comm_timeout_outcome data)
      as [(t & Ht & _ & E)|[E|[E|E]]];
      rewrite E in H; injection H as <- <-; [|tauto..].
    split; [tauto|]. right; left. eexists. split; [done|].
    rewrite Forall_singleton. unfold is_byte. lia.
Qed.

(** ** Packets and frames *)

(** The packet of the base class is made of bytes. *)
Lemma _assemble_cmd_data_lrc_bytes (cmd_name : string) (data : list value)
    (w : list string) (packet : list Z) :
  _assemble_cmd_data_lrc pass pass cmd_name data = (w, Returns packet) ->
  Forall is_byte packet.
Proof.
  intros H.
  destruct (_assemble_cmd_data_lrc_inv _ _ _ _ _ _ H)
    as (c & data_bytes & Hc & Hn & Ha & ->).
  assert (Hd : Forall is_byte (default [] data_bytes)).
  { destruct (table_assemble_outcome _ _ _ _ _ Hc Ha)
      as [_ [E|[(d & E & Hd)|[E|[E|[E|E]]]]]]; try discriminate E.
    - injection E as ->. constructor.
    - by injection E as ->. }
  assert (Hcd : Forall is_byte (number c :: default [] data_bytes))
    by (by constructor).
  rewrite app_comm_cons. apply Forall_app. split; [done|].
  apply Forall_singleton. apply fold_xor_is_byte; [done|].
  unfold is_byte. lia.
Qed.

(** X16. For an integer timeout of [0, 120] the assembler emits no
    warning and returns the single data byte [timeout]; the unaddressed
    frame is the escaped command number 0x96, that byte and their XOR,
    between STX and ETX. *)
Theorem set_comm_timeout_in_range (timeout : Z) (Ht : 0 ≤ timeout ≤ 120) :
  _assemble_set_comm_timeout [VInt timeout] = ([], Returns (Some [timeout])) /\
  PTHR90.assemble_packet "set_comm_timeout" [VInt timeout]
  = ([], Returns (0x02 :: escape_control_chars
                            [0x96; timeout; Z.lxor 0x96 timeout]
                  ++ [0x03])).
Proof.
  pose proof (_assemble_set_comm_timeout_inside timeout Ht) as Ha.
  split; [done|].
  apply PTHR90_frame.
  rewrite (_assemble_cmd_data_lrc_registered _ _ _ _ _
             (lookup_set_comm_timeout _ _)).
  cbn [assemble number]. rewrite Ha.
  change (@pair (list string) (outcome (option (list Z))) []
            (Returns (Some [timeout])))
    with (lift (Returns (Some [timeout]))).
  rewrite (to_bytes_1_unsigned 0x96) by (unfold is_byte; lia).
  rewrite bind_lift_Returns, bind_lift_Returns.
  destruct (compute_lrc_returns ([0x96] ++ [timeout])) as [_ ->].
  - cbn [app]. rewrite !Forall_cons, Forall_nil. unfold is_byte. lia.
  - by rewrite bind_lift_Returns.
Qed.

Lemma set_comm_timeout_in_range_witness :
  _assemble_set_comm_timeout [VInt 27] = ([], Returns (Some [27])) /\
  PTHR90.assemble_packet "set_comm_timeout" [VInt 27]
  = ([], Returns (0x02 :: escape_control_chars [0x96; 27; Z.lxor 0x96 27]
                  ++ [0x03])).
Proof. apply (set_comm_timeout_in_range 27). lia. Defined.

(** X17. Whatever packet [_assemble_cmd_data_lrc] returns, for any
    implementation of the status assembler, it starts with the command
    number of the table, has at least two bytes, and the XOR of all its
    bytes, checksum included, is 0. *)
Theorem packet_checksum_zero
    (ags pgs : list value -> M (option (list Z)))
    (cmd_name : string) (data : list value) (w : list string)
    (packet : list Z)
    (H : _assemble_cmd_data_lrc ags pgs cmd_name data = (w, Returns packet)) :
  xor_fold packet = 0 /\
  (2 ≤ length packet)%nat /\
  exists c : command,
    _COMMANDS ags pgs !! cmd_name = Some c /\ head packet = Some (number c).
Proof.
  destruct (_assemble_cmd_data_lrc_inv _ _ _ _ _ _ H)
    as (c & data_bytes & Hc & _ & _ & ->).
  split_and!.
  - rewrite app_comm_cons. apply xor_fold_self.
  - cbn [length]. rewrite length_app. cbn [length]. lia.
  - by exists c.
Qed.

Lemma packet_checksum_zero_witness :
  xor_fold [0x31; 0x01; 0x00; 0x00; 0x00; 0x00; 0x30] = 0 /\
  (2 ≤ length [0x31; 0x01; 0x00; 0x00; 0x00; 0x00; 0x30]%Z)%nat /\
  exists c : command,
    _COMMANDS pass pass !! "fault_reset" = Some c /\
    head [0x31; 0x01; 0x00; 0x00; 0x00; 0x00; 0x30] = Some (number c).
Proof.
  apply (packet_checksum_zero pass pass "fault_reset" [] []
           [0x31; 0x01; 0x00; 0x00; 0x00; 0x00; 0x30]).
  reflexivity.
Defined.

(** X18. Every frame the unaddressed variant returns is made of bytes,
    starts with STX and ends with ETX, and holds no STX, ETX, ACK or NACK
    between these two. *)
Theorem PTHR90_frame_well_formed (cmd_name : string) (data : list value)
    (w : list string) (frame : list Z)
    (H : PTHR90.assemble_packet cmd_name data = (w, Returns frame)) :
  exists inner : list Z,
    frame = STX CONTROL_CHARS :: inner ++ [ETX CONTROL_CHARS] /\
    Forall is_byte frame /\
    Forall
      (fun b =>
         b ∉ [STX CONTROL_CHARS; ETX CONTROL_CHARS; ACK CONTROL_CHARS;
              NACK CONTROL_CHARS])
      inner.
Proof.
  destruct (_assemble_cmd_data_lrc PTHR90._assemble_get_status
              PTHR90._parse_get_status cmd_name data)
    as [w0 [packet|e]] eqn:E;
    [|unfold PTHR90.assemble_packet in H; by rewrite E in H].
  rewrite (PTHR90_frame _ _ _ _ E) in H. injection H as _ <-.
  exists (escape_control_chars packet). split_and!.
  - done.
  - apply Forall_cons. split; [unfold is_byte; cbn; lia|].
    apply Forall_app. split.
    + apply escape_is_byte. by eapply _assemble_cmd_data_lrc_bytes.
    + apply Forall_singleton. unfold is_byte. cbn. lia.
  - apply escape_no_delimiter.
Qed.

Lemma PTHR90_frame_well_formed_witness :
  exists inner : list Z,
    [0x02; 0x96; 0x1B; 0x9B; 0x8D; 0x03]
    = STX CONTROL_CHARS :: inner ++ [ETX CONTROL_CHARS] /\
    Forall is_byte [0x02; 0x96; 0x1B; 0x9B; 0x8D; 0x03] /\
    Forall
      (fun b =>
         b ∉ [STX CONTROL_CHARS; ETX CONTROL_CHARS; ACK CONTROL_CHARS;
              NACK CONTROL_CHARS])
      inner.
Proof.
  apply (PTHR90_frame_well_formed "set_comm_timeout" [VInt 27] []
           [0x02; 0x96; 0x1B; 0x9B; 0x8D; 0x03]).
  reflexivity.
Defined.

(** X19. With an identity in range(256), every frame the addressed
    variant returns is made of bytes, starts with STX and ends with ETX,
    and holds no STX, ETX, ACK or NACK between these two, also when the
    identity is itself a control character. *)
Theorem PTCR20_frame_well_formed (self : PTCR20.t) (cmd_name : string)
    (data : list value) (w : list string) (frame : list Z)
    (Hid : is_byte (PTCR20.identity self))
    (H : PTCR20.assemble_packet self cmd_name data = (w, Returns frame)) :
  exists inner : list Z,
    frame = STX CONTROL_CHARS :: inner ++ [ETX CONTROL_CHARS] /\
    Forall is_byte frame /\
    Forall
      (fun b =>
         b ∉ [STX CONTROL_CHARS; ETX CONTROL_CHARS; ACK CONTROL_CHARS;
              NACK CONTROL_CHARS])
      inner.
Proof.
  destruct (_assemble_cmd_data_lrc PTCR20._assemble_get_status
              PTCR20._parse_get_status cmd_name data)
    as [w0 [packet|e]] eqn:E;
    [|unfold PTCR20.assemble_packet in H; by rewrite E in H].
  rewrite (PTCR20_frame _ _ _ _ _ Hid E) in H. injection H as _ <-.
  exists (escape_control_chars (PTCR20.identity self :: packet)). split_and!.
  - done.
  - apply Forall_cons. split; [unfold is_byte; cbn; lia|].
    apply Forall_app. split.
    + apply escape_is_byte. apply Forall_cons. split; [done|].
      by eapply _assemble_cmd_data_lrc_bytes.
    + apply Forall_singleton. unfold is_byte. cbn. lia.
  - apply escape_no_delimiter.
Qed.

Lemma PTCR20_frame_well_formed_witness :
  exists inner : list Z,
    [0x02; 0x1B; 0x82; 0x35; 0x35; 0x03]
    = STX CONTROL_CHARS :: inner ++ [ETX CONTROL_CHARS] /\
    Forall is_byte [0x02; 0x1B; 0x82; 0x35; 0x35; 0x03] /\
    Forall
      (fun b =>
         b ∉ [STX CONTROL_CHARS; ETX CONTROL_CHARS; ACK CONTROL_CHARS;
              NACK CONTROL_CHARS])
      inner.
Proof.
  apply (PTCR20_frame_well_formed (PTCR20.new 0x02) "home" [] []
           [0x02; 0x1B; 0x82; 0x35; 0x35; 0x03]).
  - unfold is_byte. simpl. lia.
  - reflexivity.
Defined.

(** X20. The constructor of the addressed variant keeps any identity,
    but with one outside range(256) every command that the unaddressed
    variant would assemble raises [ValueError], after the same
    warnings. *)
Theorem PTCR20_identity_out_of_range (self : PTCR20.t) (cmd_name : string)
    (data : list value) (w : list string) (frame : list Z)
    (Hid : PTCR20.identity self < 0 \/ 255 < PTCR20.identity self)
    (H : PTHR90.assemble_packet cmd_name data = (w, Returns frame)) :
  PTCR20.assemble_packet self cmd_name data = (w, Raises ValueError).
Proof.
  destruct (_assemble_cmd_data_lrc PTHR90._assemble_get_status
              PTHR90._parse_get_status cmd_name data)
    as [w0 [packet|e]] eqn:E;
    [|unfold PTHR90.assemble_packet in H; by rewrite E in H].
  rewrite (PTHR90_frame _ _ _ _ E) in H. injection H as -> _.
  unfold PTCR20.assemble_packet.
  change PTCR20._assemble_get_status with PTHR90._assemble_get_status.
  change PTCR20._parse_get_status with PTHR90._parse_get_status.
  rewrite E, bind_Returns.
  assert (Hb : bytearray_insert0 (PTCR20.identity self) packet
               = Raises ValueError).
  { unfold bytearray_insert0, is_byteb.
    destruct Hid as [Hid|Hid].
    - by rewrite (proj2 (Z.leb_gt 0 (PTCR20.identity self))) by lia.
    - rewrite (proj2 (Z.ltb_ge (PTCR20.identity self) 256)) by lia.
      by rewrite andb_false_r. }
  rewrite Hb, bind_lift_Raises. cbn. by rewrite app_nil_r.
Qed.

Lemma PTCR20_identity_out_of_range_witness :
  PTCR20.assemble_packet (PTCR20.new 256) "home" [] = ([], Raises ValueError).
Proof.
  apply (PTCR20_identity_out_of_range (PTCR20.new 256) "home" [] []
           [0x02; 0x35; 0x35; 0x03]).
  - right. simpl. lia.
  - reflexivity.
Defined.

(** What the base class can do for a registered command. *)
Lemma registered_packet_outcome (cmd_name : string) (data : list value)
    (w : list string) (r : outcome (list Z)) :
  cmd_name ∈ COMMAND_NAMES pass pass ->
  _assemble_cmd_data_lrc pass pass cmd_name data = (w, r) ->
  (w = [] \/
   (cmd_name = "set_comm_timeout" /\ w = [timeout_warning] /\
    exists packet : list Z, r = Returns packet)) /\
  ((exists packet : list Z, r = Returns packet) \/
   r = Raises TypeError \/ r = Raises ValueError \/
   r = Raises OverflowError \/ r = Raises AttributeError).
Proof.
  intros Hin H. unfold COMMAND_NAMES in Hin.
  apply elem_of_dom in Hin as [c Hc].
  rewrite (_assemble_cmd_data_lrc_registered _ _ _ c) in H by done.
  assert (Hn : is_byte (number c)).
  { unfold is_byte.
    destruct (table_entry pass pass cmd_name c Hc)
      as [(_ & _ & ->)|[(_ & _ & ->)|[(_ & _ & ->)|[(_ & _ & ->)|
          [(_ & _ & ->)|[(_ & _ & ->)|(_ & _ & ->)]]]]]]; lia. }
  rewrite (to_bytes_1_unsigned _ _ Hn), bind_lift_Returns in H.
  destruct (assemble c data) as [w1 r1] eqn:Ea.
  destruct (table_assemble_outcome _ _ _ _ _ Hc Ea) as [Hw Hr].
  destruct r1 as [data_bytes|e].
  - rewrite bind_Returns in H. cbv zeta in H.
    assert (Hp : Forall is_byte
                   match data_bytes with
                   | Some d => [number c] ++ d
                   | None => [number c]
                   end).
    { destruct data_bytes as [d|]; [|by apply Forall_singleton].
      destruct Hr as [E|[(d' & E & Hd)|[E|[E|[E|E]]]]]; try discriminate E.
      injection E as <-. apply Forall_app. split; [|done].
      by apply Forall_singleton. }
    destruct (compute_lrc_returns _ Hp) as [_ El]. rewrite El in H.
    rewrite bind_lift_Returns in H. cbn in H. rewrite app_nil_r in H.
    injection H as <- <-. split; [|left; by eexists].
    destruct Hw as [->|(-> & -> & _)]; [by left|].
    right. split_and!; [done..|by eexists].
  - rewrite bind_Raises in H. injection H as <- <-.
    split.
    + destruct Hw as [->|(_ & _ & E)]; [by left|discriminate E].
    + destruct Hr as [E|[(d' & E & _)|[E|[E|[E|E]]]]];
        try discriminate E; injection E as ->; tauto.
Qed.

(** X21. In the unaddressed variant a registered command either returns
    a frame or raises one of [TypeError], [ValueError], [OverflowError]
    and [AttributeError], never [NotImplementedError], [KeyError] or
    [struct.error]; a warning is emitted only by "set_comm_timeout", it is
    the timeout warning, and a frame is still returned after it. *)
Theorem registered_command_outcome (cmd_name : string) (data : list value)
    (w : list string) (r : outcome (list Z))
    (Hin : cmd_name ∈ COMMAND_NAMES PTHR90._assemble_get_status
                        PTHR90._parse_get_status)
    (H : PTHR90.assemble_packet cmd_name data = (w, r)) :
  (w = [] \/
   (cmd_name = "set_comm_timeout" /\ w = [timeout_warning] /\
    exists frame : list Z, r = Returns frame)) /\
  ((exists frame : list Z, r = Returns frame) \/
   r = Raises TypeError \/ r = Raises ValueError \/
   r = Raises OverflowError \/ r = Raises AttributeError).
Proof.
  destruct (_assemble_cmd_data_lrc PTHR90._assemble_get_status
              PTHR90._parse_get_status cmd_name data)
    as [w0 r0] eqn:E.
  destruct (registered_packet_outcome _ _ _ _ Hin E) as [Hw Hr].
  destruct r0 as [packet|e].
  - rewrite (PTHR90_frame _ _ _ _ E) in H. injection H as <- <-.
    split; [|left; by eexists].
    destruct Hw as [->|(-> & -> & _)]; [by left|].
    right. split_and!; [done..|by eexists].
  - unfold PTHR90.assemble_packet in H. rewrite E, bind_Raises in H.
    injection H as <- <-. split.
    + destruct Hw as [->|(_ & _ & p & Ep)]; [by left|discriminate Ep].
    + destruct Hr as [(p & Ep)|?]; [discriminate Ep|tauto].
Qed.

Lemma registered_command_outcome_witness :
  ([timeout_warning] = [] \/
   ("set_comm_timeout" = "set_comm_timeout" /\
    [timeout_warning] = [timeout_warning] /\
    exists frame : list Z,
      Returns [0x02; 0x96; 0x96; 0x03] = Returns frame)) /\
  ((exists frame : list Z, Returns [0x02; 0x96; 0x96; 0x03] = Returns frame) \/
   Returns [0x02; 0x96; 0x96; 0x03] = Raises TypeError \/
   Returns [0x02; 0x96; 0x96; 0x03] = Raises ValueError \/
   Returns [0x02; 0x96; 0x96; 0x03] = Raises OverflowError \/
   Returns [0x02; 0x96; 0x96; 0x03] = Raises AttributeError).
Proof.
  apply (registered_command_outcome "set_comm_timeout" [VInt (-1)]
           [timeout_warning] (Returns [0x02; 0x96; 0x96; 0x03])).
  - apply (bool_decide_unpack _). vm_compute. exact I.
  - reflexivity.
Defined.
